(** * cams: the air-quality edge handler of [src/index.js]

    A shallow embedding of the handler and the properties of its
    specification.  JavaScript numbers are IEEE 754 binary64 values, taken
    here as the Standard Library's [spec_float] at precision 53; values,
    exceptions, the catalog, the query builder, the join over the twelve
    requests, the index aggregation and the listener follow the source
    function by function. *)

From Stdlib Require Import ZArith Lia Bool List String Ascii.
From Stdlib Require Import SpecFloat DecimalString.
Import ListNotations.
Set Warnings "-register-all".
Open Scope string_scope.
Open Scope Z_scope.

(** ** Numbers *)

Definition number : Type := spec_float.

(** binary64: 53 bits of precision, infinities at exponent 1024. *)
Definition prec : Z := 53.
Definition emax : Z := 1024.

Definition num_add : number -> number -> number := SFadd prec emax.
Definition num_mul : number -> number -> number := SFmul prec emax.
Definition num_div : number -> number -> number := SFdiv prec emax.
Definition num_neg : number -> number := SFopp.
Definition num_lt : number -> number -> bool := SFltb.
Definition num_le : number -> number -> bool := SFleb.
(** [a >= b] is [b <= a]; both are false as soon as one side is NaN. *)
Definition num_ge (a b : number) : bool := SFleb b a.

(** The number written as an integer literal in the source. *)
Definition num_of_Z (z : Z) : number := binary_normalize prec emax z 0 false.

Definition NaN : number := S754_nan.
Definition pos_zero : number := S754_zero false.

Definition is_nan (x : number) : bool :=
  match x with S754_nan => true | _ => false end.

Definition is_zero (x : number) : bool :=
  match x with S754_zero _ => true | _ => false end.

(** Neither NaN nor an infinity. *)
Definition is_finite (x : number) : bool :=
  match x with S754_zero _ | S754_finite _ _ _ => true | _ => false end.

(** Equal as numbers: the same value, the two zeros identified (as [===]
    does on non-NaN numbers). *)
Definition same_number (x y : number) : Prop :=
  x = y \/ (is_zero x = true /\ is_zero y = true).

(** [Math.PI], the double 0x1.921fb54442d18p+1. *)
Definition Math_PI : number := S754_finite false 7074237752028440 (-51).

(** ** Values, exceptions *)

Inductive JsVal : Type :=
| VUndefined
| VNull
| VBool (b : bool)
| VNum (x : number)
| VStr (s : string)
| VArr (items : list JsVal)
| VObj (fields : list (string * JsVal)).

(** A JavaScript computation either completes with a value or throws; of the
    thrown error only [message] is ever read (by the listener). *)
Inductive Completion (A : Type) : Type :=
| Normal (a : A)
| Throw (message : string).
Arguments Normal {A} a.
Arguments Throw {A} message.

Definition bind {A B} (c : Completion A) (k : A -> Completion B) : Completion B :=
  match c with
  | Normal a => k a
  | Throw m => Throw m
  end.

Notation "x <- c ;; k" := (bind c (fun x => k))
  (at level 61, c at next level, right associativity).

(** What the source leaves to the JavaScript runtime. *)
Record Runtime : Type := {
  (** [Math.cos], whose precision is implementation-defined *)
  Math_cos : number -> number;
  (** [Number::toString], used by [bbox.join(',')] *)
  Number_toString : number -> string;
  (** [a + b] when an operand is a string or an object (string
      concatenation after ToPrimitive, which may throw) *)
  add_slow : JsVal -> JsVal -> Completion JsVal;
  (** ToNumber of a string or an object *)
  toNumber_slow : JsVal -> Completion number;
  (** string form of [Object.prototype[name]] when that property exists *)
  Object_prototype : string -> option string;
  (** message of the TypeError raised on reading a property of
      [undefined] or [null] *)
  typeError_message : string
}.

(** ToNumber on the primitives that [+] and [/] treat numerically. *)
Definition numeric_operand (v : JsVal) : option number :=
  match v with
  | VUndefined => Some NaN
  | VNull => Some pos_zero
  | VBool true => Some (num_of_Z 1)
  | VBool false => Some pos_zero
  | VNum x => Some x
  | VStr _ | VArr _ | VObj _ => None
  end.

Section Operators.
Context (rt : Runtime).

(** [p + c] *)
Definition js_add (p c : JsVal) : Completion JsVal :=
  match numeric_operand p, numeric_operand c with
  | Some x, Some y => Normal (VNum (num_add x y))
  | _, _ => add_slow rt p c
  end.

Definition toNumber (v : JsVal) : Completion number :=
  match numeric_operand v with
  | Some x => Normal x
  | None => toNumber_slow rt v
  end.

(** [p / n] with [n] a number *)
Definition js_div (p : JsVal) (n : number) : Completion number :=
  x <- toNumber p ;; Normal (num_div x n).

(** [arr.reduce(f, init)] for a callback that may throw *)
Fixpoint reduce {A B} (f : A -> B -> Completion A) (arr : list B) (init : A)
  : Completion A :=
  match arr with
  | [] => Normal init
  | c :: rest => p <- f init c ;; reduce f rest p
  end.

(** [average = arr => arr.reduce((p, c) => p + c, 0) / arr.length] *)
Definition average (arr : list JsVal) : Completion number :=
  s <- reduce js_add arr (VNum (num_of_Z 0)) ;;
  js_div s (num_of_Z (Z.of_nat (List.length arr))).
End Operators.

(** The five [if] statements on [aqi], in source order, each assigning
    [qualitativeName] when its test holds. *)
Definition qualitativeName_of (aqi : number) : option string :=
  let q := None in
  let q := if num_ge aqi (num_of_Z 100) then Some "very_high" else q in
  let q := if num_lt aqi (num_of_Z 100) then Some "high" else q in
  let q := if num_lt aqi (num_of_Z 75) then Some "medium" else q in
  let q := if num_lt aqi (num_of_Z 50) then Some "low" else q in
  let q := if num_lt aqi (num_of_Z 25) then Some "very_low" else q in
  q.

(** The bands as the specification words them: mutually exclusive ranges. *)
Definition band_by_range (aqi : number) : option string :=
  if num_ge aqi (num_of_Z 100) then Some "very_high"
  else if num_le (num_of_Z 75) aqi && num_lt aqi (num_of_Z 100) then Some "high"
  else if num_le (num_of_Z 50) aqi && num_lt aqi (num_of_Z 75) then Some "medium"
  else if num_le (num_of_Z 25) aqi && num_lt aqi (num_of_Z 50) then Some "low"
  else if num_lt aqi (num_of_Z 25) then Some "very_low"
  else None.

(** ** Strings, objects used as maps *)

Definition lower_ascii (c : ascii) : ascii :=
  let n := nat_of_ascii c in
  if andb (Nat.leb 65 n) (Nat.leb n 90) then ascii_of_nat (n + 32) else c.

Fixpoint toLowerCase (s : string) : string :=
  match s with
  | EmptyString => EmptyString
  | String c r => String (lower_ascii c) (toLowerCase r)
  end.

(** [hay.includes(needle)] *)
Fixpoint includes (needle hay : string) : bool :=
  if prefix needle hay then true
  else match hay with
       | EmptyString => false
       | String _ r => includes needle r
       end.

(** Own-property lookup in insertion order. *)
Fixpoint lookup {A} (key : string) (o : list (string * A)) : option A :=
  match o with
  | [] => None
  | (k, v) :: r => if String.eqb k key then Some v else lookup key r
  end.

Definition remove_key {A} (key : string) (o : list (string * A)) : list (string * A) :=
  filter (fun kv => negb (String.eqb (fst kv) key)) o.

(** [{...o, [key]: v}], [URLSearchParams.set] and [Headers.set]: an existing
    key keeps its place and takes the new value, a new key goes last. *)
Fixpoint assign {A} (key : string) (v : A) (o : list (string * A)) : list (string * A) :=
  match o with
  | [] => [(key, v)]
  | (k, w) :: r =>
      if String.eqb k key then (key, v) :: remove_key key r
      else (k, w) :: assign key v r
  end.

Definition Object_keys {A} (o : list (string * A)) : list string := map fst o.

(** [arr.join(sep)] on strings *)
Definition join (sep : string) (parts : list string) : string := String.concat sep parts.

(** ** The static tables *)

Definition atmosphereTypeToLayer : list (string * string) :=
  [ ("Pollen-Birch", "composition_europe_pol_birch_forecast_surface");
    ("CO", "composition_europe_co_forecast_surface");
    ("Pollen-Grass", "composition_europe_pol_grass_forecast_surface");
    ("NH3", "composition_europe_nh3_forecast_surface");
    ("NMVOC", "composition_europe_nmvoc_forecast_surface");
    ("NO", "composition_europe_no_forecast_surface");
    ("NO2", "composition_europe_no2_forecast_surface");
    ("O3", "composition_europe_o3_forecast_surface");
    ("PANs", "composition_europe_pans_forecast_surface");
    ("PM10", "composition_europe_pm10_forecast_surface");
    ("PM2.5", "composition_europe_pm2p5_forecast_surface");
    ("SO2", "composition_europe_so2_forecast_surface") ].

Definition moderateLimit : list (string * option Z) :=
  [ ("Pollen-Birch", None); ("CO", Some 5000); ("Pollen-Grass", None);
    ("NH3", None); ("NMVOC", None); ("NO", None); ("NO2", Some 54);
    ("O3", None); ("PANs", None); ("PM10", Some 25); ("PM2.5", Some 10);
    ("SO2", Some 100) ].

Definition badLimit : list (string * option Z) :=
  [ ("Pollen-Birch", None); ("CO", Some 7000); ("Pollen-Grass", None);
    ("NH3", None); ("NMVOC", None); ("NO", None); ("NO2", Some 72);
    ("O3", None); ("PANs", None); ("PM10", Some 35); ("PM2.5", Some 25);
    ("SO2", Some 150) ].

(** ** Requests, responses, the world outside *)

Record URL : Type := {
  url_base : string;
  url_searchParams : list (string * string)
}.

(** [body] is a string in the source; the two ways it is produced are kept
    apart: a plain message, or [JSON.stringify(payload, null, indent)]. *)
Inductive PayloadValue : Type :=
| LayerEntry (unit value : JsVal)
| AqiEntry (qualitativeName : option string) (value : number).

Inductive Body : Type :=
| BodyText (message : string)
| BodyJson (payload : list (string * PayloadValue)) (indent : option Z).

Record Response : Type := {
  status : Z;
  headers : list (string * string);
  body : Body
}.

Record Request : Type := {
  req_searchParams : list (string * string);
  req_headers : list (string * string)
}.

(** How one [fetch] ends: the promise rejects (transport failure), or it
    resolves to a response with its [ok] flag and the completion of
    [response.json()]. *)
Inductive FetchOutcome : Type :=
| FetchRejected (message : string)
| FetchResponse (ok : bool) (json : Completion JsVal).

(** The environment of one invocation: what the upstream service answers to
    each query, the order in which the twelve [get] promises settle
    (positions in [Object.keys] order; positions left out settle last, in
    key order), and the two clock readings of the listener ([new Date()] for
    [d], then the one inside [nextHour]), in milliseconds since the epoch. *)
Record World : Type := {
  fetch : URL -> FetchOutcome;
  settleOrder : list nat;
  now_d : Z;
  now_nextHour : Z
}.

Record Reading : Type := {
  rd_type : string;
  rd_value : JsVal;
  rd_unit : JsVal
}.

(** [new Headers(init)] and [headers.get]: names are case-insensitive and
    kept in lower case. *)
Definition new_Headers (init : list (string * string)) : list (string * string) :=
  fold_left (fun h kv => assign (toLowerCase (fst kv)) (snd kv) h) init [].

Definition headers_get (h : list (string * string)) (name : string) : option string :=
  lookup (toLowerCase name) (new_Headers h).

Definition headers_set (r : Response) (name value : string) : Response :=
  {| status := status r;
     headers := assign (toLowerCase name) value (headers r);
     body := body r |}.

(** [new Response(body, {status, headers})]: a string body brings the
    default content type when the init headers name none. *)
Definition new_Response (b : Body) (st : Z) (init : list (string * string)) : Response :=
  let h := new_Headers init in
  {| status := st;
     headers := match lookup "content-type" h with
                | Some _ => h
                | None => assign "content-type" "text/plain;charset=UTF-8" h
                end;
     body := b |}.

(** [url.searchParams.get(name)]: the first value, or [null]. *)
Definition searchParams_get (params : list (string * string)) (name : string) : option string :=
  lookup name params.

(** ** [parseFloat]

    Leading white space is dropped, then the longest prefix that is a
    StrDecimalLiteral is read and rounded to the nearest double; without
    such a prefix the result is NaN.  Strings are taken over 8-bit code
    units. *)

Definition is_whitespace (c : ascii) : bool :=
  let n := nat_of_ascii c in
  orb (andb (Nat.leb 9 n) (Nat.leb n 13)) (orb (Nat.eqb n 32) (Nat.eqb n 160)).

Fixpoint trimStart (s : string) : string :=
  match s with
  | String c r => if is_whitespace c then trimStart r else s
  | EmptyString => s
  end.

Definition digit_of (c : ascii) : option Z :=
  let n := nat_of_ascii c in
  if andb (Nat.leb 48 n) (Nat.leb n 57) then Some (Z.of_nat (n - 48)) else None.

(** The leading decimal digits of [s], most significant first, and the rest. *)
Fixpoint take_digits (s : string) : list Z * string :=
  match s with
  | String c r =>
      match digit_of c with
      | Some d => let '(ds, rest) := take_digits r in (d :: ds, rest)
      | None => ([], s)
      end
  | EmptyString => ([], s)
  end.

Definition digits_value (ds : list Z) : Z :=
  fold_left (fun acc d => 10 * acc + d) ds 0.

Definition take_sign (s : string) : bool * string :=
  match s with
  | String "-" r => (true, r)
  | String "+" r => (false, r)
  | _ => (false, s)
  end.

(** ExponentPart, when one is there in full; otherwise exponent 0. *)
Definition take_exponent (s : string) : Z :=
  match s with
  | String c r =>
      if orb (Ascii.eqb c "e") (Ascii.eqb c "E") then
        let '(neg, r') := take_sign r in
        match take_digits r' with
        | ([], _) => 0
        | (ds, _) => if neg then - digits_value ds else digits_value ds
        end
      else 0
  | EmptyString => 0
  end.

Inductive Literal : Type :=
| LitInfinity (neg : bool)
| LitDecimal (neg : bool) (mantissa exp10 : Z).

Definition scan_literal (s : string) : option Literal :=
  let '(neg, r) := take_sign s in
  if prefix "Infinity" r then Some (LitInfinity neg)
  else
    let '(int_ds, r1) := take_digits r in
    let '(frac_ds, r2) :=
      match r1 with
      | String "." r1' => take_digits r1'
      | _ => ([], r1)
      end in
    match (int_ds ++ frac_ds)%list with
    | [] => None
    | ds => Some (LitDecimal neg (digits_value ds)
                    (take_exponent r2 - Z.of_nat (List.length frac_ds)))
    end.

(** The double nearest to [mantissa * 10 ^ exp10], signed. *)
Definition decimal_value (neg : bool) (mantissa exp10 : Z) : number :=
  match mantissa with
  | Zpos m =>
      if 0 <=? exp10
      then binary_normalize prec emax (cond_Zopp neg (Zpos m * 10 ^ exp10)) 0 neg
      else num_div (S754_finite neg m 0)
                   (S754_finite false (Z.to_pos (10 ^ (- exp10))) 0)
  | _ => S754_zero neg
  end.

Definition literal_value (l : Literal) : number :=
  match l with
  | LitInfinity neg => S754_infinity neg
  | LitDecimal neg m e => decimal_value neg m e
  end.

Definition parseFloat (s : string) : number :=
  match scan_literal (trimStart s) with
  | Some l => literal_value l
  | None => NaN
  end.

(** ToString of what [searchParams.get] returns: a string, or [null]. *)
Definition string_of_param (p : option string) : string :=
  match p with
  | Some s => s
  | None => "null"
  end.

(** ** Dates: time values in milliseconds since the epoch, UTC *)

Definition msPerDay : Z := 86400000.
Definition msPerHour : Z := 3600000.
Definition msPerMinute : Z := 60000.
Definition msPerSecond : Z := 1000.

Definition Day (t : Z) : Z := t / msPerDay.
Definition HourFromTime (t : Z) : Z := (t / msPerHour) mod 24.
Definition MinFromTime (t : Z) : Z := (t / msPerMinute) mod 60.
Definition SecFromTime (t : Z) : Z := (t / msPerSecond) mod 60.
Definition msFromTime (t : Z) : Z := t mod msPerSecond.

Definition MakeTime (hour min sec ms : Z) : Z :=
  hour * msPerHour + min * msPerMinute + sec * msPerSecond + ms.
Definition MakeDate (day time : Z) : Z := day * msPerDay + time.

Definition getUTCHours (t : Z) : Z := HourFromTime t.
Definition setUTCHours (t hour : Z) : Z :=
  MakeDate (Day t) (MakeTime hour (MinFromTime t) (SecFromTime t) (msFromTime t)).
Definition setUTCMinutes (t min : Z) : Z :=
  MakeDate (Day t) (MakeTime (HourFromTime t) min (SecFromTime t) (msFromTime t)).
Definition setUTCSeconds (t sec : Z) : Z :=
  MakeDate (Day t) (MakeTime (HourFromTime t) (MinFromTime t) sec (msFromTime t)).

(** Year, month (1..12) and day of the month of a day number. *)
Definition civil_of_day (day : Z) : Z * Z * Z :=
  let z := day + 719468 in
  let era := z / 146097 in
  let doe := z mod 146097 in
  let yoe := (doe - doe / 1460 + doe / 36524 - doe / 146096) / 365 in
  let doy := doe - (365 * yoe + yoe / 4 - yoe / 100) in
  let mp := (5 * doy + 2) / 153 in
  let d := doy - (153 * mp + 2) / 5 + 1 in
  let m := if mp <? 10 then mp + 3 else mp - 9 in
  let y := yoe + era * 400 + (if m <=? 2 then 1 else 0) in
  (y, m, d).

Definition digit_char (d : Z) : ascii := ascii_of_nat (48 + Z.to_nat d).

(** The last [width] decimal digits of [n], zero-padded. *)
Fixpoint pad_digits (width : nat) (n : Z) (acc : string) : string :=
  match width with
  | O => acc
  | S w => pad_digits w (n / 10) (String (digit_char (n mod 10)) acc)
  end.

(** At least four digits, with a sign only when negative. *)
Definition year_string (y : Z) : string :=
  let a := Z.abs y in
  let digits := if a <? 10000 then pad_digits 4 a ""
                else NilZero.string_of_uint (N.to_uint (Z.to_N a)) in
  (if y <? 0 then "-" else "") ++ digits.

Definition day_name (wd : Z) : string :=
  nth (Z.to_nat wd) ["Sun"; "Mon"; "Tue"; "Wed"; "Thu"; "Fri"; "Sat"] "".

Definition month_name (m : Z) : string :=
  nth (Z.to_nat (m - 1))
    ["Jan"; "Feb"; "Mar"; "Apr"; "May"; "Jun"; "Jul"; "Aug"; "Sep"; "Oct"; "Nov"; "Dec"] "".

(** [d.toUTCString()]: down to the second, milliseconds dropped. *)
Definition toUTCString (t : Z) : string :=
  let '(y, m, d) := civil_of_day (Day t) in
  day_name ((Day t + 4) mod 7) ++ ", " ++ pad_digits 2 d "" ++ " " ++
  month_name m ++ " " ++ year_string y ++ " " ++
  pad_digits 2 (HourFromTime t) "" ++ ":" ++ pad_digits 2 (MinFromTime t) "" ++ ":" ++
  pad_digits 2 (SecFromTime t) "" ++ " GMT".

(** ** The source functions *)

Definition dquote : string := String "034"%char EmptyString.

Section Handler.
Context (rt : Runtime).

(** [offset([long, lat], dn, de)]; every caller passes [dn] and [de]. *)
Definition offset (coord : number * number) (dn de : number) : number * number :=
  let '(long, lat) := coord in
  let R := num_of_Z 6378137 in
  let dLat := num_div dn R in
  let dLon :=
    num_div de (num_mul R (Math_cos rt (num_div (num_mul Math_PI lat) (num_of_Z 180)))) in
  let latO := num_add lat (num_div (num_mul dLat (num_of_Z 180)) Math_PI) in
  let lonO := num_add long (num_div (num_mul dLon (num_of_Z 180)) Math_PI) in
  (lonO, latO).

(** [bbox] as [get] computes it. *)
Definition bbox_of (coord : number * number) : list number :=
  let radius := num_of_Z 5000 in
  let '(longNW, latNW) := offset coord (num_neg radius) (num_neg radius) in
  let '(longSE, latSE) := offset coord radius radius in
  [latNW; longNW; latSE; longSE].

(** [atmosphereTypeToLayer[type]] turned into the string that
    [searchParams.set] stores: an own key gives its layer, a name that only
    [Object.prototype] has gives that property's string form, any other
    gives [undefined]. *)
Definition layer_of (type : string) : string :=
  match lookup type atmosphereTypeToLayer with
  | Some layer => layer
  | None =>
      match Object_prototype rt type with
      | Some inherited => inherited
      | None => "undefined"
      end
  end.

(** The query that [get] hands to [fetch]. *)
Definition query_url (coord : number * number) (type : string) : URL :=
  let bbox := bbox_of coord in
  let layer := layer_of type in
  let set k v (u : URL) :=
    {| url_base := url_base u;
       url_searchParams := assign k v (url_searchParams u) |} in
  let url := {| url_base := "https://apps.ecmwf.int/wms/"; url_searchParams := [] |} in
  let url := set "service" "wms" url in
  let url := set "version" "1.3.0" url in
  let url := set "request" "GetFeatureInfo" url in
  let url := set "token" "public" url in
  let url := set "layers" layer url in
  let url := set "query_layers" layer url in
  let url := set "info_format" "application/json" url in
  let url := set "elevation" "0" url in
  let url := set "crs" "EPSG:4326" url in
  let url := set "bbox" (join "," (map (Number_toString rt) bbox)) url in
  let url := set "width" "200" url in
  let url := set "height" "200" url in
  let url := set "x" "100" url in
  let url := set "y" "100" url in
  url.

(** [v.name] for a name that no built-in prototype defines. *)
Definition get_named (v : JsVal) (name : string) : Completion JsVal :=
  match v with
  | VUndefined | VNull => Throw (typeError_message rt)
  | VObj fields =>
      Normal (match lookup name fields with Some x => x | None => VUndefined end)
  | VBool _ | VNum _ | VStr _ | VArr _ => Normal VUndefined
  end.

(** [v[0]] *)
Definition get_index0 (v : JsVal) : Completion JsVal :=
  match v with
  | VUndefined | VNull => Throw (typeError_message rt)
  | VArr items => Normal (match items with x :: _ => x | [] => VUndefined end)
  | VStr s =>
      Normal (match s with
              | String c _ => VStr (String c EmptyString)
              | EmptyString => VUndefined
              end)
  | VObj fields =>
      Normal (match lookup "0" fields with Some x => x | None => VUndefined end)
  | VBool _ | VNum _ => Normal VUndefined
  end.

(** [json.Probes[0].Value.<field>] *)
Definition probe_field (json : JsVal) (field : string) : Completion JsVal :=
  probes <- get_named json "Probes" ;;
  probe <- get_index0 probes ;;
  v <- get_named probe "Value" ;;
  get_named v field.

(** The body of the [try] block of [get]. *)
Definition read_probe (type : string) (json : Completion JsVal) : Completion Reading :=
  j <- json ;;
  value <- probe_field j "Data" ;;
  unit <- probe_field j "Unit" ;;
  Normal {| rd_type := type; rd_value := value; rd_unit := unit |}.

(** [get([long, lat], type)], as the settled state of its promise. *)
Definition get (w : World) (coord : number * number) (type : string)
  : Completion Reading :=
  match fetch w (query_url coord type) with
  | FetchRejected message => Throw message
  | FetchResponse ok json =>
      if negb ok then Throw "Could not fetch data"
      else match read_probe type json with
           | Normal reading => Normal reading
           | Throw _ => Normal {| rd_type := type; rd_value := VNull; rd_unit := VNull |}
           end
  end.

(** [Promise.all]: rejected with the reason of the promise that rejects
    first, otherwise fulfilled with all values in input order. *)
Fixpoint first_rejection {A} (order : list nat) (promises : list (Completion A))
  : option string :=
  match order with
  | [] => None
  | i :: rest =>
      match nth_error promises i with
      | Some (Throw message) => Some message
      | _ => first_rejection rest promises
      end
  end.

Fixpoint all_values {A} (promises : list (Completion A)) : Completion (list A) :=
  match promises with
  | [] => Normal []
  | p :: rest => x <- p ;; xs <- all_values rest ;; Normal (x :: xs)
  end.

Definition Promise_all {A} (order : list nat) (promises : list (Completion A))
  : Completion (list A) :=
  match first_rejection order promises with
  | Some message => Throw message
  | None => all_values promises
  end.

Definition getAll (w : World) (coords : number * number) : Completion (list Reading) :=
  let keys := Object_keys atmosphereTypeToLayer in
  let promises := map (fun type => get w coords type) keys in
  Promise_all (settleOrder w) promises.

(** [responseData[type].value] *)
Definition entry_value (responseData : list (string * PayloadValue)) (type : string)
  : Completion JsVal :=
  match lookup type responseData with
  | Some (LayerEntry _ value) => Normal value
  | Some (AqiEntry _ value) => Normal (VNum value)
  | None => Throw (typeError_message rt)
  end.

(** The [reduce] that builds [responseData] from the readings. *)
Definition collect (atmosphereData : list Reading) : list (string * PayloadValue) :=
  fold_left
    (fun acc curr => assign (rd_type curr) (LayerEntry (rd_unit curr) (rd_value curr)) acc)
    atmosphereData [].

(** The index: the mean of the four designated values and its band. *)
Definition aqi_of (responseData : list (string * PayloadValue))
  : Completion (option string * number) :=
  no2 <- entry_value responseData "NO2" ;;
  pm10 <- entry_value responseData "PM10" ;;
  o3 <- entry_value responseData "O3" ;;
  pm25 <- entry_value responseData "PM2.5" ;;
  aqi <- average rt [no2; pm10; o3; pm25] ;;
  Normal (qualitativeName_of aqi, aqi).

Definition handle (w : World) (event : Request) : Completion Response :=
  let lat := parseFloat (string_of_param (searchParams_get (req_searchParams event) "lat")) in
  if is_nan lat then
    Throw ("You did not provide a latitude value in the " ++ dquote ++ "lat" ++ dquote
           ++ " search parameter.")
  else
  let lng := parseFloat (string_of_param (searchParams_get (req_searchParams event) "lng")) in
  if is_nan lng then
    Throw ("You did not provide a longitude value in the " ++ dquote ++ "lat" ++ dquote
           ++ " search parameter.")
  else
  atmosphereData <- getAll w (lng, lat) ;;
  let responseData := collect atmosphereData in
  index <- aqi_of responseData ;;
  let '(qualitativeName, aqi) := index in
  let responseData := assign "aqi" (AqiEntry qualitativeName aqi) responseData in
  let prettyPrint :=
    match headers_get (req_headers event) "origin" with
    | None => true
    | Some _ => false
    end in
  Normal (new_Response (BodyJson responseData (if prettyPrint then Some 4 else None))
            200 [("content-type", "application/json")]).

Definition errorResponse (msg : string) : Response :=
  new_Response (BodyText msg) 400 [].

(** [nextHour()], from the hour of its own clock reading. *)
Definition nextHour (now : Z) : Z :=
  let hh := getUTCHours now in
  if hh <? 24 then hh + 1 else 0.

(** The [fetch] listener: the response given to [event.respondWith]. *)
Definition fetch_listener (w : World) (event : Request) : Response :=
  match handle w event with
  | Normal response =>
      let d := now_d w in
      let d := setUTCHours d (nextHour (now_nextHour w)) in
      let d := setUTCMinutes d 0 in
      let d := setUTCSeconds d 0 in
      let response := headers_set response "Expires" (toUTCString d) in
      let response := headers_set response "Access-Control-Allow-Origin" "*" in
      let response := headers_set response "Access-Control-Request-Method" "GET" in
      response
  | Throw message => errorResponse message
  end.
End Handler.

(** ** Notions used to state the properties *)

(** The four pollutants that enter the index, in the order the source sums
    them. *)
Definition designated : list string := ["NO2"; "PM10"; "O3"; "PM2.5"].

(** The [value] of the designated readings in a payload ([None] where the
    payload has no such layer entry). *)
Definition designated_values (responseData : list (string * PayloadValue))
  : list (option JsVal) :=
  map (fun type => match lookup type responseData with
                   | Some (LayerEntry _ value) => Some value
                   | _ => None
                   end) designated.

(** [x] put at position [k] of [l]. *)
Definition insert_at {A} (k : nat) (x : A) (l : list A) : list A :=
  (firstn k l ++ x :: skipn k l)%list.

(** A reading's value as the sum takes it: a number as it is, [null] as
    [+0], [undefined] as NaN. *)
Definition summand (v : JsVal) : number :=
  match numeric_operand v with
  | Some x => x
  | None => NaN
  end.

(** The arithmetic mean as the source computes it: summed from 0, left to
    right, then divided by the count. *)
Definition mean (xs : list number) : number :=
  num_div (fold_left num_add xs (num_of_Z 0)) (num_of_Z (Z.of_nat (List.length xs))).

(** The values a reading can carry for which [+] is numeric addition. *)
Definition number_null_or_undefined (v : JsVal) : Prop :=
  match v with
  | VNum _ | VNull | VUndefined => True
  | _ => False
  end.

Definition null_or_finite (v : JsVal) : Prop :=
  match v with
  | VNull => True
  | VNum x => is_finite x = true
  | _ => False
  end.

Definition nullish (v : JsVal) : bool :=
  match v with
  | VUndefined | VNull => true
  | _ => false
  end.

(** [v?.name] and [v?.[0]]: navigation that yields [undefined] instead of
    throwing. *)
Definition member (v : JsVal) (name : string) : JsVal :=
  match v with
  | VObj fields => match lookup name fields with Some x => x | None => VUndefined end
  | _ => VUndefined
  end.

Definition first_element (v : JsVal) : JsVal :=
  match v with
  | VArr (x :: _) => x
  | VStr (String c _) => VStr (String c EmptyString)
  | VObj fields => match lookup "0" fields with Some x => x | None => VUndefined end
  | _ => VUndefined
  end.

(** [json?.Probes?.[0]?.Value] *)
Definition probe_Value (json : JsVal) : JsVal :=
  member (first_element (member json "Probes")) "Value".

(** A body from which nothing can be read: it does not parse, or
    [Probes], [Probes[0]] or [Probes[0].Value] is missing or [null]. *)
Definition unreadable (json : Completion JsVal) : Prop :=
  match json with
  | Throw _ => True
  | Normal j => nullish (probe_Value j) = true
  end.

Definition null_reading (type : string) : Reading :=
  {| rd_type := type; rd_value := VNull; rd_unit := VNull |}.

(** The reading of one layer as a function of that layer's body alone. *)
Definition reading_of (type : string) (json : Completion JsVal) : Reading :=
  match json with
  | Throw _ => null_reading type
  | Normal j =>
      let v := probe_Value j in
      if nullish v then null_reading type
      else {| rd_type := type; rd_value := member v "Data"; rd_unit := member v "Unit" |}
  end.

(** The shape the handler expects of a body, as the specification has it:
    an object whose [Probes] is an array, its first element an object whose
    [Value] is an object with [Data] and [Unit]. *)
Definition expected_shape (json : JsVal) : bool :=
  match json with
  | VObj fields =>
      match lookup "Probes" fields with
      | Some (VArr (VObj probe :: _)) =>
          match lookup "Value" probe with
          | Some (VObj v) =>
              match lookup "Data" v, lookup "Unit" v with
              | Some _, Some _ => true
              | _, _ => false
              end
          | _ => false
          end
      | _ => false
      end
  | _ => false
  end.

(** What [response.json()] completes with, for a fetch that resolved. *)
Definition response_json (o : FetchOutcome) : Completion JsVal :=
  match o with
  | FetchResponse _ json => json
  | FetchRejected message => Throw message
  end.

(** A query parameter that [parseFloat] accepts: present, and starting,
    after white space, with a decimal literal. *)
Definition numeric (p : option string) : bool :=
  match p with
  | Some s => match scan_literal (trimStart s) with Some _ => true | None => false end
  | None => false
  end.

(** Radians to degrees, as the source writes it: [x * 180 / Math.PI]. *)
Definition to_degrees (x : number) : number :=
  num_div (num_mul x (num_of_Z 180)) Math_PI.

(** The offset in the specification's words: [dLat = dn/R] and
    [dLon = de/(R cos(pi lat/180))], both turned into degrees and added to
    [lat] and [long]. *)
Definition offset_formula (rt : Runtime) (long lat dn de : number) : number * number :=
  let R := num_of_Z 6378137 in
  let dLat := num_div dn R in
  let dLon := num_div de (num_mul R (Math_cos rt (num_div (num_mul Math_PI lat) (num_of_Z 180)))) in
  (num_add long (to_degrees dLon), num_add lat (to_degrees dLat)).

(** The first instant of the UTC hour after the one [t] lies in. *)
Definition top_of_next_hour (t : Z) : Z := (t / msPerHour + 1) * msPerHour.

(** ** A runtime and worlds for the worked examples *)

(** The examples sit on the equator, so the cosine they need is 1; they add
    numbers and [null] only. *)
Definition example_runtime : Runtime :=
  {| Math_cos := fun _ => num_of_Z 1;
     Number_toString := fun x => if is_zero x then "0" else "x";
     add_slow := fun _ _ => Throw "unsupported operand";
     toNumber_slow := fun _ => Normal NaN;
     Object_prototype := fun _ => None;
     typeError_message := "Cannot read properties of undefined" |}.

(** The same runtime with the [toString] of [Object.prototype]. *)
Definition prototype_runtime : Runtime :=
  {| Math_cos := Math_cos example_runtime;
     Number_toString := Number_toString example_runtime;
     add_slow := add_slow example_runtime;
     toNumber_slow := toNumber_slow example_runtime;
     Object_prototype := fun name =>
       if String.eqb name "toString" then Some "function toString() { [native code] }"
       else None;
     typeError_message := typeError_message example_runtime |}.

Definition probe_body (data unit : JsVal) : JsVal :=
  VObj [("Probes", VArr [VObj [("Value", VObj [("Data", data); ("Unit", unit)])]])].

Definition type_of_layer (layer : string) : option string :=
  option_map fst (find (fun kv => String.eqb (snd kv) layer) atmosphereTypeToLayer).

(** An upstream service that answers by pollutant type, [default] for the
    types not listed. *)
Definition upstream (answers : list (string * FetchOutcome)) (default : FetchOutcome)
  : URL -> FetchOutcome :=
  fun u =>
    match lookup "layers" (url_searchParams u) with
    | Some layer =>
        match type_of_layer layer with
        | Some type => match lookup type answers with Some o => o | None => default end
        | None => default
        end
    | None => default
    end.

Definition ok_number (z : Z) : FetchOutcome :=
  FetchResponse true (Normal (probe_body (VNum (num_of_Z z)) (VStr "ug/m3"))).

Definition example_world (answers : list (string * FetchOutcome)) (order : list nat) : World :=
  {| fetch := upstream answers (ok_number 1);
     settleOrder := order;
     now_d := 1700000000123;
     now_nextHour := 1700000000124 |}.

Definition example_request : Request :=
  {| req_searchParams := [("lat", "0"); ("lng", "0")]; req_headers := [] |}.

(** The readings of the specification's worked example. *)
Definition example_readings : list (string * FetchOutcome) :=
  [("NO2", ok_number 40); ("PM10", ok_number 20); ("O3", ok_number 60);
   ("PM2.5", ok_number 10)].

(** A payload with the given values for the listed types and 1 elsewhere. *)
Definition example_payload (vals : list (string * JsVal)) : list (string * PayloadValue) :=
  collect
    (map (fun type =>
            {| rd_type := type;
               rd_value := match lookup type vals with
                           | Some v => v
                           | None => VNum (num_of_Z 1)
                           end;
               rd_unit := VStr "ug/m3" |})
       (Object_keys atmosphereTypeToLayer)).

(** 32.5 and 22.5 as doubles. *)
Definition n32_5 : number := parseFloat "32.5".
Definition n22_5 : number := parseFloat "22.5".


(** ** Notions for the further properties *)

(** The date [d] whose string the listener puts in [Expires]. *)
Definition expires_at (w : World) : Z :=
  setUTCSeconds (setUTCMinutes (setUTCHours (now_d w) (nextHour (now_nextHour w))) 0) 0.

(** The same world with the promises settling in another order. *)
Definition with_settleOrder (w : World) (order : list nat) : World :=
  {| fetch := fetch w; settleOrder := order;
     now_d := now_d w; now_nextHour := now_nextHour w |}.

(** The payload entry that the [reduce] of [handle] makes of a reading. *)
Definition layer_entry (r : Reading) : string * PayloadValue :=
  (rd_type r, LayerEntry (rd_unit r) (rd_value r)).

(** The last reading of a type in a list of readings. *)
Definition last_reading (type : string) (readings : list Reading) : option Reading :=
  find (fun r => String.eqb (rd_type r) type) (rev readings).

(** The same request stripped of its headers. *)
Definition without_headers (event : Request) : Request :=
  {| req_searchParams := req_searchParams event; req_headers := [] |}.

(** The third argument of [JSON.stringify] in [handle]. *)
Definition indent_for (event : Request) : option Z :=
  match headers_get (req_headers event) "origin" with
  | None => Some 4
  | Some _ => None
  end.

(** A response whose JSON body is printed with another indent. *)
Definition with_indent (indent : option Z) (r : Response) : Response :=
  {| status := status r;
     headers := headers r;
     body := match body r with
             | BodyJson payload _ => BodyJson payload indent
             | BodyText message => BodyText message
             end |}.

(** The two validation messages of [handle]. *)
Definition latitude_message : string :=
  "You did not provide a latitude value in the " ++ dquote ++ "lat" ++ dquote
  ++ " search parameter.".

Definition longitude_message : string :=
  "You did not provide a longitude value in the " ++ dquote ++ "lat" ++ dquote
  ++ " search parameter.".

(** The bands from best to worst; an unset name ranks below all. *)
Definition band_rank (q : option string) : Z :=
  match q with
  | None => -1
  | Some name =>
      if String.eqb name "very_low" then 0
      else if String.eqb name "low" then 1
      else if String.eqb name "medium" then 2
      else if String.eqb name "high" then 3
      else 4
  end.

(** The parameters of a query other than the two that name the layer. *)
Definition common_params (u : URL) : list (string * string) :=
  remove_key "query_layers" (remove_key "layers" (url_searchParams u)).

(** Midnight passes between the listener's two clock readings. *)
Definition midnight_world : World :=
  {| fetch := upstream [] (ok_number 1);
     settleOrder := [];
     now_d := 1700006399999;
     now_nextHour := 1700006400000 |}.

(** * Properties *)

(** ** Ordering of numbers *)

Ltac split_compare :=
  repeat match goal with
    | H : context [Pos.compare_cont Eq ?a ?b] |- _ =>
        change (Pos.compare_cont Eq a b) with (Pos.compare a b) in H
    | |- context [Pos.compare_cont Eq ?a ?b] =>
        change (Pos.compare_cont Eq a b) with (Pos.compare a b)
    | H : context [Z.compare ?a ?b] |- _ =>
        destruct (Z.compare_spec a b); try discriminate H
    | H : context [Pos.compare ?a ?b] |- _ =>
        destruct (Pos.compare_spec a b); try discriminate H
    | |- context [Z.compare ?a ?b] =>
        destruct (Z.compare_spec a b); try reflexivity; try lia
    | |- context [Pos.compare ?a ?b] =>
        destruct (Pos.compare_spec a b); try reflexivity; try lia
    end.

Lemma num_lt_trans (x y z : number) :
  num_lt x y = true -> num_lt y z = true -> num_lt x z = true.
Proof.
  unfold num_lt, SFltb.
  destruct x as [sx | sx | | sx mx ex], y as [sy | sy | | sy my ey],
    z as [sz | sz | | sz mz ez]; simpl;
    try destruct sx; try destruct sy; try destruct sz; simpl;
    try discriminate; try reflexivity; intros H1 H2.
  all: split_compare.
Qed.

(** On numbers, [y <= x] is the negation of [x < y]. *)
Lemma num_le_not_lt (x y : number) :
  is_nan x = false -> is_nan y = false -> num_le y x = negb (num_lt x y).
Proof.
  unfold num_le, num_lt, SFleb, SFltb.
  destruct x as [sx | sx | | sx mx ex], y as [sy | sy | | sy my ey]; simpl;
    try destruct sx; try destruct sy; simpl;
    try discriminate; try reflexivity; intros _ _.
  all: split_compare.
Qed.

Lemma nan_compares_false (y : number) :
  num_lt NaN y = false /\ num_le y NaN = false.
Proof. destruct y; split; reflexivity. Qed.

Lemma limits_ascend :
  num_lt (num_of_Z 25) (num_of_Z 50) = true
  /\ num_lt (num_of_Z 50) (num_of_Z 75) = true
  /\ num_lt (num_of_Z 75) (num_of_Z 100) = true.
Proof. repeat split; vm_compute; reflexivity. Qed.

Lemma limit_not_nan (z : Z) : (0 < z)%Z -> (z <= 100)%Z -> is_nan (num_of_Z z) = false.
Proof.
  intros H1 H2.
  assert (Hz : In z (map Z.of_nat (seq 1 100))).
  { apply in_map_iff. exists (Z.to_nat z). split; [lia | apply in_seq; lia]. }
  vm_compute in Hz.
  repeat (destruct Hz as [<- | Hz]; [reflexivity | ]). destruct Hz.
Qed.

(** The sequence of overwriting tests gives the bands read as ranges. *)
Lemma bands_agree (aqi : number) : qualitativeName_of aqi = band_by_range aqi.
Proof.
  destruct (is_nan aqi) eqn:Hnan.
  - destruct aqi; try discriminate. reflexivity.
  - destruct limits_ascend as (H25 & H50 & H75).
    unfold qualitativeName_of, band_by_range, num_ge.
    rewrite !(num_le_not_lt aqi) by (assumption || (apply limit_not_nan; lia)).
    destruct (num_lt aqi (num_of_Z 25)) eqn:L25;
      destruct (num_lt aqi (num_of_Z 50)) eqn:L50;
      destruct (num_lt aqi (num_of_Z 75)) eqn:L75;
      destruct (num_lt aqi (num_of_Z 100)) eqn:L100; simpl; try reflexivity;
      repeat match goal with
        | Ha : num_lt aqi ?a = true, Hb : num_lt ?a ?b = true,
          Hc : num_lt aqi ?b = false |- _ =>
            rewrite (num_lt_trans aqi a b Ha Hb) in Hc; discriminate Hc
        | Ha : num_lt aqi ?a = true, Hb : num_lt ?a ?b = true |- _ =>
            lazymatch goal with
            | _ : num_lt aqi b = true |- _ => fail
            | _ => pose proof (num_lt_trans aqi a b Ha Hb)
            end
        end.
Qed.

Lemma band_unset_iff_nan (aqi : number) :
  qualitativeName_of aqi = None <-> is_nan aqi = true.
Proof.
  destruct (is_nan aqi) eqn:Hnan.
  - destruct aqi; try discriminate. split; reflexivity.
  - unfold qualitativeName_of, num_ge.
    rewrite (num_le_not_lt aqi) by (assumption || (apply limit_not_nan; lia)).
    split; [ | discriminate ].
    destruct (num_lt aqi (num_of_Z 25)), (num_lt aqi (num_of_Z 50)),
      (num_lt aqi (num_of_Z 75)), (num_lt aqi (num_of_Z 100)); simpl; discriminate.
Qed.

(** ** Rounding never produces NaN *)

Lemma shr_1_nonneg (mrs : shr_record) : 0 <= shr_m mrs -> 0 <= shr_m (shr_1 mrs).
Proof.
  destruct mrs as [m r s]; simpl.
  destruct m as [ | p | p]; intros H; [simpl; lia | | lia].
  destruct p; simpl; lia.
Qed.

Lemma iter_pos_invariant {A} (P : A -> Prop) (f : A -> A) :
  (forall x, P x -> P (f x)) -> forall n x, P x -> P (iter_pos f n x).
Proof.
  intros Hf n. induction n as [n IH | n IH | ]; intros x Hx; simpl.
  - apply IH, IH, Hf, Hx.
  - apply IH, IH, Hx.
  - apply Hf, Hx.
Qed.

Lemma shr_fexp_nonneg (m e : Z) (l : location) :
  0 <= m -> 0 <= shr_m (fst (shr_fexp prec emax m e l)).
Proof.
  intros Hm. unfold shr_fexp, shr.
  assert (H0 : 0 <= shr_m (shr_record_of_loc m l)).
  { destruct l as [ | c]; [ | destruct c]; exact Hm. }
  destruct (fexp prec emax (Zdigits2 m + e) - e) as [ | p | p]; simpl; try exact H0.
  apply (iter_pos_invariant (fun r => 0 <= shr_m r)); [apply shr_1_nonneg | exact H0].
Qed.

Lemma round_nearest_even_nonneg (m : Z) (l : location) :
  0 <= m -> 0 <= round_nearest_even m l.
Proof.
  intros Hm. destruct l as [ | c]; [ | destruct c]; simpl; try lia.
  destruct (Z.even m); lia.
Qed.

Lemma binary_round_aux_not_nan (sx : bool) (mx ex : Z) (lx : location) :
  0 <= mx -> is_nan (binary_round_aux prec emax sx mx ex lx) = false.
Proof.
  intros Hm. unfold binary_round_aux.
  pose proof (shr_fexp_nonneg mx ex lx Hm) as H1.
  destruct (shr_fexp prec emax mx ex lx) as [mrs' e']; simpl in H1.
  pose proof (shr_fexp_nonneg
                (round_nearest_even (shr_m mrs') (loc_of_shr_record mrs')) e' loc_Exact
                (round_nearest_even_nonneg _ _ H1)) as H2.
  destruct (shr_fexp prec emax _ e' loc_Exact) as [mrs'' e'']; simpl in H2.
  destruct (shr_m mrs'') as [ | p | p]; try reflexivity; try lia.
  destruct (e'' <=? emax - prec); reflexivity.
Qed.

Lemma binary_normalize_not_nan (m e : Z) (szero : bool) :
  is_nan (binary_normalize prec emax m e szero) = false.
Proof.
  destruct m as [ | p | p]; simpl; try reflexivity;
    unfold binary_round;
    destruct (shl_align _ _ _) as [mz ez]; apply binary_round_aux_not_nan; lia.
Qed.

(** Adding a finite number never turns a number into NaN. *)
Lemma num_add_not_nan (x y : number) :
  is_nan x = false -> is_finite y = true -> is_nan (num_add x y) = false.
Proof.
  unfold num_add.
  destruct x as [sx | sx | | sx mx ex], y as [sy | sy | | sy my ey];
    try discriminate; intros _ _; simpl;
    try destruct sx; try destruct sy; try reflexivity;
    apply binary_normalize_not_nan.
Qed.

Lemma div_finite_not_nan (sx sy : bool) (mx my : positive) (ex ey : Z) :
  is_nan (num_div (S754_finite sx mx ex) (S754_finite sy my ey)) = false.
Proof.
  unfold num_div, SFdiv, SFdiv_core_binary.
  set (s := (ex - ey - _)%Z).
  set (m' := match s with Z0 => Zpos mx | Zpos _ => Z.shiftl (Zpos mx) s | Zneg _ => 0 end).
  assert (Hm' : 0 <= m').
  { subst m'. destruct s; try lia. apply Z.shiftl_nonneg. lia. }
  pose proof (Z_div_mod m' (Zpos my) ltac:(lia)) as Hdiv.
  destruct (Z.div_eucl m' (Zpos my)) as [q r].
  apply binary_round_aux_not_nan. nia.
Qed.

(** Dividing a number by a non-zero finite number never gives NaN. *)
Lemma num_div_not_nan (x : number) (sy : bool) (my : positive) (ey : Z) :
  is_nan x = false -> is_nan (num_div x (S754_finite sy my ey)) = false.
Proof.
  destruct x as [sx | sx | | sx mx ex]; try discriminate; intros _;
    try reflexivity.
  apply div_finite_not_nan.
Qed.

(** ** The two zeros *)

Lemma same_number_refl (x : number) : same_number x x.
Proof. left; reflexivity. Qed.

Lemma same_number_trans (x y z : number) :
  same_number x y -> same_number y z -> same_number x z.
Proof.
  intros [-> | [Hx Hy]] [<- | [Hy' Hz]]; try (left; reflexivity);
    right; split; assumption.
Qed.

Lemma add_zero_l (a : number) : same_number (num_add pos_zero a) a.
Proof.
  destruct a as [s | s | | s m e]; try (left; reflexivity).
  destruct s; [right; split; reflexivity | left; reflexivity].
Qed.

Lemma add_zero_r (x : number) : same_number (num_add x pos_zero) x.
Proof.
  destruct x as [s | s | | s m e]; try (left; reflexivity).
  destruct s; [right; split; reflexivity | left; reflexivity].
Qed.

Lemma add_same_l (x x' b : number) :
  same_number x x' -> same_number (num_add x b) (num_add x' b).
Proof.
  intros [-> | [Hx Hx']]; [left; reflexivity | ].
  destruct x as [s | | | ], x' as [s' | | | ]; try discriminate.
  destruct b as [sb | sb | | sb mb eb]; try (left; reflexivity).
  right. destruct s, s', sb; split; reflexivity.
Qed.

Lemma div_same_l (x x' : number) (sy : bool) (my : positive) (ey : Z) :
  same_number x x' ->
  same_number (num_div x (S754_finite sy my ey)) (num_div x' (S754_finite sy my ey)).
Proof.
  intros [-> | [Hx Hx']]; [left; reflexivity | ].
  destruct x as [s | | | ], x' as [s' | | | ]; try discriminate.
  right; split; reflexivity.
Qed.

Lemma add_nan_l (y : number) : num_add NaN y = NaN.
Proof. reflexivity. Qed.

Lemma add_nan_r (x : number) : num_add x NaN = NaN.
Proof. destruct x; reflexivity. Qed.

(** ** Rounding keeps to binary64 *)

Lemma digits2_size (p : positive) : digits2_pos p = Pos.size p.
Proof. induction p; simpl; congruence. Qed.

Lemma Zdigits2_nonneg (z : Z) : 0 <= Zdigits2 z.
Proof. destruct z; simpl; lia. Qed.

Lemma Zdigits2_gt (z : Z) : 0 <= z -> z < 2 ^ Zdigits2 z.
Proof.
  destruct z as [ | p | p]; intros H; simpl Zdigits2; [reflexivity | | lia].
  rewrite digits2_size. pose proof (Pos.size_gt p) as Hs.
  change 2 with (Zpos 2). rewrite <- Pos2Z.inj_pow. lia.
Qed.

Lemma Zdigits2_le (z k : Z) : 0 <= z < 2 ^ k -> 0 <= k -> Zdigits2 z <= k.
Proof.
  destruct z as [ | p | p]; intros H Hk; simpl Zdigits2; [lia | | lia].
  rewrite digits2_size. pose proof (Pos.size_le p) as Hs.
  assert (Hp : 2 ^ Zpos (Pos.size p) <= 2 * Zpos p).
  { change 2 with (Zpos 2) at 1. rewrite <- Pos2Z.inj_pow. lia. }
  assert (Hlt : 2 ^ Zpos (Pos.size p) < 2 ^ (k + 1)).
  { rewrite Z.pow_add_r by lia. lia. }
  apply Z.pow_lt_mono_r_iff in Hlt; lia.
Qed.

Lemma Zdigits2_mono (a b : Z) : 0 <= a <= b -> Zdigits2 a <= Zdigits2 b.
Proof.
  intros H. apply Zdigits2_le; [ | apply Zdigits2_nonneg].
  pose proof (Zdigits2_gt b). lia.
Qed.

Lemma Zdigits2_succ (m m2 : Z) : 0 <= m -> m <= m2 <= m + 1 -> Zdigits2 m2 <= Zdigits2 m + 1.
Proof.
  intros Hm H. pose proof (Zdigits2_gt m Hm) as Hg. pose proof (Zdigits2_nonneg m).
  apply Zdigits2_le; [ | lia].
  rewrite Z.pow_add_r by lia. lia.
Qed.

Lemma shr_1_digits (r : shr_record) :
  0 <= shr_m r ->
  0 <= shr_m (shr_1 r) /\ Zdigits2 (shr_m (shr_1 r)) = Z.max 0 (Zdigits2 (shr_m r) - 1).
Proof.
  destruct r as [m rb sb]. cbn [shr_m].
  destruct m as [ | p | p]; intros H; [cbn; lia | | lia].
  destruct p; cbn [shr_1 shr_m Zdigits2 digits2_pos]; rewrite ?Pos2Z.inj_succ; lia.
Qed.

Lemma shr_iter_digits (n : positive) (r : shr_record) :
  0 <= shr_m r ->
  0 <= shr_m (iter_pos shr_1 n r)
  /\ Zdigits2 (shr_m (iter_pos shr_1 n r)) = Z.max 0 (Zdigits2 (shr_m r) - Zpos n).
Proof.
  revert r. induction n as [n IH | n IH | ]; intros r Hr; simpl iter_pos.
  - destruct (shr_1_digits r Hr) as [H1 D1].
    destruct (IH _ H1) as [H2 D2]. destruct (IH _ H2) as [H3 D3].
    split; [exact H3 | ]. rewrite D3, D2, D1. lia.
  - destruct (IH _ Hr) as [H2 D2]. destruct (IH _ H2) as [H3 D3].
    split; [exact H3 | ]. rewrite D3, D2. lia.
  - apply shr_1_digits, Hr.
Qed.

Lemma shr_fexp_spec (m e : Z) (l : location) :
  0 <= m ->
  let r := fst (shr_fexp prec emax m e l) in
  let e1 := snd (shr_fexp prec emax m e l) in
  0 <= shr_m r
  /\ e1 = Z.max e (fexp prec emax (Zdigits2 m + e))
  /\ Zdigits2 (shr_m r) + e1 = Z.max e1 (Zdigits2 m + e).
Proof.
  intros Hm. unfold shr_fexp, shr.
  assert (H0 : shr_m (shr_record_of_loc m l) = m).
  { destruct l as [ | c]; [ | destruct c]; reflexivity. }
  pose proof (Zdigits2_nonneg m) as Hd.
  destruct (fexp prec emax (Zdigits2 m + e) - e) as [ | p | p] eqn:Hn; simpl fst; simpl snd.
  - rewrite H0. lia.
  - destruct (shr_iter_digits p (shr_record_of_loc m l)) as [H1 D1]; [rewrite H0; exact Hm | ].
    rewrite H0 in D1. split; [exact H1 | ]. rewrite D1. lia.
  - rewrite H0. lia.
Qed.

Lemma round_nearest_even_bounds (m : Z) (l : location) :
  m <= round_nearest_even m l <= m + 1.
Proof.
  destruct l as [ | c]; [ | destruct c]; simpl; try lia.
  destruct (Z.even m); lia.
Qed.

Lemma fexp_value (z : Z) : fexp prec emax z = Z.max (z - 53) (-1074).
Proof. reflexivity. Qed.

(** The exponent of a rounded result is in range unless the input was too
    large, and its mantissa is canonical when the input had digits enough. *)
Lemma binary_round_aux_spec (sx : bool) (mx ex : Z) (lx : location) :
  0 <= mx ->
  match binary_round_aux prec emax sx mx ex lx with
  | S754_finite _ m e =>
      e <= 971
      /\ (ex <= fexp prec emax (Zdigits2 mx + ex) -> canonical_mantissa prec emax m e = true)
  | S754_infinity _ => 971 < ex \/ 1023 < Zdigits2 mx + ex
  | S754_zero _ => True
  | S754_nan => False
  end.
Proof.
  intros Hm. unfold binary_round_aux.
  destruct (shr_fexp_spec mx ex lx Hm) as (H1 & E1 & D1).
  destruct (shr_fexp prec emax mx ex lx) as [mrs' e1]; simpl fst in *; simpl snd in *.
  pose proof (round_nearest_even_bounds (shr_m mrs') (loc_of_shr_record mrs')) as Hr.
  set (m2 := round_nearest_even (shr_m mrs') (loc_of_shr_record mrs')) in *.
  assert (Hm2 : 0 <= m2) by lia.
  destruct (shr_fexp_spec m2 e1 loc_Exact Hm2) as (H2 & E2 & D2).
  destruct (shr_fexp prec emax m2 e1 loc_Exact) as [mrs'' e2]; simpl fst in *; simpl snd in *.
  pose proof (Zdigits2_succ (shr_m mrs') m2 H1 Hr) as Hs.
  pose proof (Zdigits2_mono (shr_m mrs') m2 ltac:(lia)) as Hmono.
  pose proof (Zdigits2_nonneg mx) as Hdx.
  rewrite fexp_value in *.
  destruct (shr_m mrs'') as [ | p | p] eqn:Hp; try exact I; try lia.
  simpl Zdigits2 in D2.
  destruct (Z.leb_spec e2 (emax - prec)) as [Hle | Hgt]; unfold emax, prec in *.
  - split; [lia | ]. intros Hpre. unfold canonical_mantissa. apply Z.eqb_eq.
    rewrite fexp_value. lia.
  - lia.
Qed.

Lemma iter_xO_digits (d m : positive) :
  Zpos (digits2_pos (Pos.iter xO m d)) = Zpos (digits2_pos m) + Zpos d.
Proof.
  induction d as [ | d IH] using Pos.peano_ind.
  - simpl. lia.
  - rewrite Pos.iter_succ. cbn [digits2_pos]. rewrite Pos2Z.inj_succ, IH. lia.
Qed.

Lemma binary_round_valid (sx : bool) (mx : positive) (ex : Z) :
  valid_binary prec emax (binary_round prec emax sx mx ex) = true.
Proof.
  unfold binary_round, shl_align.
  set (ex' := fexp prec emax (Zpos (digits2_pos mx) + ex)).
  assert (Hpre : forall mz ez,
             ez <= fexp prec emax (Zdigits2 (Zpos mz) + ez) ->
             valid_binary prec emax (binary_round_aux prec emax sx (Zpos mz) ez loc_Exact) = true).
  { intros mz ez H.
    pose proof (binary_round_aux_spec sx (Zpos mz) ez loc_Exact ltac:(lia)) as Hs.
    destruct (binary_round_aux prec emax sx (Zpos mz) ez loc_Exact); try reflexivity.
    destruct Hs as [He Hc]. unfold valid_binary, bounded. rewrite (Hc H). simpl.
    apply Z.leb_le. exact He. }
  destruct (ex' - ex) as [ | d | d] eqn:Hd; apply Hpre; cbn [Zdigits2]; subst ex'.
  - lia.
  - lia.
  - rewrite iter_xO_digits.
    replace (Zpos (digits2_pos mx) + Zpos d + fexp prec emax (Zpos (digits2_pos mx) + ex))
      with (Zpos (digits2_pos mx) + ex) by lia.
    lia.
Qed.

Lemma binary_normalize_valid (m e : Z) (szero : bool) :
  valid_binary prec emax (binary_normalize prec emax m e szero) = true.
Proof. destruct m; simpl; [reflexivity | apply binary_round_valid ..]. Qed.

(** Sums of binary64 values are binary64 values. *)
Lemma num_add_valid (x y : number) :
  valid_binary prec emax x = true -> valid_binary prec emax y = true ->
  valid_binary prec emax (num_add x y) = true.
Proof.
  unfold num_add.
  destruct x as [sx | sx | | sx mx ex], y as [sy | sy | | sy my ey]; intros Hx Hy;
    try destruct sx; try destruct sy; try reflexivity; try assumption;
    apply binary_normalize_valid.
Qed.

(** ** The index aggregator *)

Lemma aqi_of_average (rt : Runtime) (rd : list (string * PayloadValue)) (vals : list JsVal) :
  designated_values rd = map Some vals ->
  aqi_of rt rd = (aqi <- average rt vals ;; Normal (qualitativeName_of aqi, aqi)).
Proof.
  unfold designated_values, designated, aqi_of, entry_value. simpl.
  destruct vals as [ | v1 [ | v2 [ | v3 [ | v4 [ | ]]]]]; try discriminate.
  simpl. intros H. injection H as H1 H2 H3 H4.
  destruct (lookup "NO2" rd) as [[] | ]; try discriminate.
  destruct (lookup "PM10" rd) as [[] | ]; try discriminate.
  destruct (lookup "O3" rd) as [[] | ]; try discriminate.
  destruct (lookup "PM2.5" rd) as [[] | ]; try discriminate.
  injection H1 as ->. injection H2 as ->. injection H3 as ->. injection H4 as ->.
  reflexivity.
Qed.

Lemma designated_values_four (rd : list (string * PayloadValue)) (vals : list JsVal) :
  designated_values rd = map Some vals -> List.length vals = 4%nat.
Proof.
  intros H. apply (f_equal (@List.length _)) in H.
  rewrite length_map in H. unfold designated_values in H. rewrite length_map in H.
  symmetry. exact H.
Qed.

Lemma summand_operand (v : JsVal) :
  number_null_or_undefined v -> numeric_operand v = Some (summand v).
Proof. destruct v; simpl; intros H; try contradiction; reflexivity. Qed.

Lemma reduce_add (rt : Runtime) (vals : list JsVal) (acc : number) :
  Forall number_null_or_undefined vals ->
  reduce (js_add rt) vals (VNum acc)
  = Normal (VNum (fold_left num_add (map summand vals) acc)).
Proof.
  intros H. revert acc. induction H as [ | v vals Hv _ IH]; intros acc; simpl.
  - reflexivity.
  - unfold js_add. simpl. rewrite (summand_operand v Hv). simpl. apply IH.
Qed.

Lemma average_mean (rt : Runtime) (vals : list JsVal) :
  Forall number_null_or_undefined vals ->
  average rt vals = Normal (mean (map summand vals)).
Proof.
  intros H. unfold average, mean. rewrite (reduce_add rt vals _ H). simpl.
  rewrite length_map. reflexivity.
Qed.

Lemma fold_add_not_nan (xs : list number) (acc : number) :
  is_nan acc = false -> Forall (fun x => is_finite x = true) xs ->
  is_nan (fold_left num_add xs acc) = false.
Proof.
  intros Hacc H. revert acc Hacc. induction H as [ | x xs Hx _ IH]; intros acc Hacc; simpl.
  - exact Hacc.
  - apply IH, num_add_not_nan; assumption.
Qed.

Lemma fold_add_nan (xs : list number) (acc : number) :
  is_nan acc = true \/ In NaN xs -> fold_left num_add xs acc = NaN.
Proof.
  revert acc. induction xs as [ | x xs IH]; intros acc H; simpl.
  - destruct H as [H | []]. destruct acc; try discriminate. reflexivity.
  - apply IH. destruct H as [H | [-> | H]].
    + left. destruct acc; try discriminate. reflexivity.
    + left. rewrite add_nan_r. reflexivity.
    + right. exact H.
Qed.

Lemma four_is_finite : num_of_Z 4 = S754_finite false 4503599627370496 (-50).
Proof. reflexivity. Qed.

(** A quarter of a finite binary64 value is finite. *)
Lemma quarter_is_finite (x : number) :
  valid_binary prec emax x = true -> is_finite x = true ->
  is_finite (num_div x (num_of_Z 4)) = true.
Proof.
  rewrite four_is_finite.
  destruct x as [s | s | | s m e]; try discriminate; intros Hv _; [reflexivity | ].
  unfold valid_binary, bounded, canonical_mantissa in Hv.
  apply andb_true_iff in Hv. destruct Hv as [Hc He].
  apply Z.eqb_eq in Hc. apply Z.leb_le in He. rewrite fexp_value in Hc.
  unfold emax, prec in He.
  unfold num_div, SFdiv, SFdiv_core_binary.
  change (Zdigits2 (Zpos 4503599627370496)) with 53.
  cbn [Zdigits2]. rewrite fexp_value.
  change IntDef.Z.min with Z.min. change IntDef.Z.div_eucl with Z.div_eucl.
  change IntDef.Z.shiftl with Z.shiftl.
  set (D := Zpos (digits2_pos m)) in *.
  set (e' := Z.min (Z.max (D + e - (53 + -50) - 53) (-1074)) (e - -50)).
  set (sh := e - -50 - e').
  assert (Hsh : 0 <= sh) by (subst sh e'; lia).
  set (m' := match sh with Z0 => Zpos m | Zpos _ => Z.shiftl (Zpos m) sh | Zneg _ => 0 end).
  assert (Hm' : m' = Zpos m * 2 ^ sh).
  { subst m'. destruct sh as [ | p | p] eqn:Hp; [simpl; lia | | lia].
    rewrite Z.shiftl_mul_pow2 by lia. reflexivity. }
  assert (Hmlt : Zpos m < 2 ^ D) by (apply (Zdigits2_gt (Zpos m)); lia).
  assert (Hm'lt : 0 <= m' < 2 ^ (D + sh)).
  { rewrite Hm', Z.pow_add_r by lia.
    pose proof (Z.pow_pos_nonneg 2 sh ltac:(lia) Hsh). nia. }
  destruct (Z.div_eucl m' 4503599627370496) as [q r] eqn:Hdiv.
  assert (Hq : q = m' / 2 ^ 52).
  { change (2 ^ 52) with 4503599627370496. unfold Z.div. rewrite Hdiv. reflexivity. }
  assert (Hq0 : 0 <= q) by (rewrite Hq; apply Z.div_pos; lia).
  assert (Hqd : Zdigits2 q <= Z.max 0 (D + sh - 52)).
  { destruct (Z.le_gt_cases 52 (D + sh)) as [Hbig | Hsmall].
    - apply Zdigits2_le; [ | lia]. split; [exact Hq0 | ].
      rewrite Hq. apply Z.div_lt_upper_bound; [lia | ].
      rewrite Z.max_r by lia. rewrite <- Z.pow_add_r by lia.
      replace (52 + (D + sh - 52)) with (D + sh) by lia. lia.
    - assert (q = 0).
      { rewrite Hq. apply Z.div_small. split; [lia | ].
        apply Z.lt_le_trans with (2 ^ (D + sh)); [lia | ].
        apply Z.pow_le_mono_r; lia. }
      subst q. rewrite H. simpl. lia. }
  pose proof (binary_round_aux_spec (xorb s false) q e'
                (new_location 4503599627370496 r) Hq0) as Hs.
  destruct (binary_round_aux prec emax (xorb s false) q e' _); try reflexivity.
  - exfalso. subst e' sh. lia.
  - contradiction.
Qed.

Lemma same_number_finite (x y : number) :
  same_number x y -> is_finite y = true -> is_finite x = true.
Proof.
  intros [-> | [Hx _]] Hy; [exact Hy | ]. destruct x; try discriminate; reflexivity.
Qed.

(** C1 (as amended).  For the readings NO2 = 40, PM10 = 20, O3 = 60 and
    PM2.5 = 10 the index aggregator produces the value 32.5, and the name it
    assigns is "low": 32.5 lies in the band from 25 to 50. *)
Theorem worked_example_is_low (rt : Runtime) (rd : list (string * PayloadValue)) :
  designated_values rd
  = map Some [VNum (num_of_Z 40); VNum (num_of_Z 20); VNum (num_of_Z 60); VNum (num_of_Z 10)] ->
  aqi_of rt rd = Normal (Some "low", n32_5).
Proof.
  intros H. rewrite (aqi_of_average rt rd _ H).
  rewrite average_mean by (repeat constructor).
  vm_compute. reflexivity.
Qed.

Lemma worked_example_is_low_witness :
  aqi_of example_runtime
    (example_payload [("NO2", VNum (num_of_Z 40)); ("PM10", VNum (num_of_Z 20));
                      ("O3", VNum (num_of_Z 60)); ("PM2.5", VNum (num_of_Z 10))])
  = Normal (Some "low", n32_5).
Proof. apply worked_example_is_low. vm_compute. reflexivity. Defined.

(** C1 as stated fails: on the readings 40, 20, 60, 10 the aggregator does
    not name the index "medium". *)
Lemma worked_example_not_medium :
  let rd := example_payload [("NO2", VNum (num_of_Z 40)); ("PM10", VNum (num_of_Z 20));
                             ("O3", VNum (num_of_Z 60)); ("PM2.5", VNum (num_of_Z 10))] in
  designated_values rd
  = map Some [VNum (num_of_Z 40); VNum (num_of_Z 20); VNum (num_of_Z 60); VNum (num_of_Z 10)]
  /\ aqi_of example_runtime rd <> Normal (Some "medium", n32_5).
Proof. split; [vm_compute; reflexivity | vm_compute; discriminate]. Qed.

(** C2 (as amended).  When at least one of the four designated readings is
    [null] and the others are numbers, [null] or [undefined], the index value
    is the mean of the four with every [null] counted as 0 and it is named by
    its band.  With finite numbers beside the nulls the value is not NaN and
    a name is assigned; the value is NaN and the name unset when one of the
    four is [undefined]. *)
Theorem null_readings_mean (rt : Runtime) (rd : list (string * PayloadValue))
    (vals : list JsVal) :
  designated_values rd = map Some vals ->
  Forall number_null_or_undefined vals ->
  In VNull vals ->
  let v := mean (map summand vals) in
  aqi_of rt rd = Normal (qualitativeName_of v, v)
  /\ summand VNull = pos_zero
  /\ (Forall null_or_finite vals -> is_nan v = false /\ qualitativeName_of v <> None)
  /\ (In VUndefined vals -> is_nan v = true /\ qualitativeName_of v = None).
Proof.
  intros Hrd Hvals _ v.
  pose proof (designated_values_four rd vals Hrd) as Hlen.
  split; [ | split; [reflexivity | split]].
  - rewrite (aqi_of_average rt rd vals Hrd), (average_mean rt vals Hvals). reflexivity.
  - intros Hfin.
    assert (Hv : is_nan v = false).
    { subst v. unfold mean. rewrite length_map, Hlen. simpl Z.of_nat.
      rewrite four_is_finite. apply num_div_not_nan, fold_add_not_nan; [reflexivity | ].
      apply Forall_map. eapply Forall_impl; [ | exact Hfin].
      intros [ | | | x | | | ]; simpl; intros H; try contradiction; [reflexivity | exact H]. }
    split; [exact Hv | ].
    intros Hq. apply band_unset_iff_nan in Hq. congruence.
  - intros Hin.
    assert (Hv : v = NaN).
    { subst v. unfold mean. rewrite fold_add_nan; [reflexivity | ].
      right. change NaN with (summand VUndefined). apply in_map, Hin. }
    rewrite Hv. split; reflexivity.
Qed.

Lemma null_readings_mean_witness :
  aqi_of example_runtime
    (example_payload [("NO2", VNull); ("PM10", VNum (num_of_Z 20));
                      ("O3", VNum (num_of_Z 60)); ("PM2.5", VNum (num_of_Z 10))])
  = Normal (Some "very_low", n22_5).
Proof.
  refine (proj1 (null_readings_mean example_runtime _
                   [VNull; VNum (num_of_Z 20); VNum (num_of_Z 60); VNum (num_of_Z 10)]
                   _ _ _)).
  - vm_compute. reflexivity.
  - repeat constructor.
  - simpl. left. reflexivity.
Defined.

(** C2 as stated fails: NO2 is [null], yet the value is 22.5, not NaN, and
    the name "very_low" is assigned. *)
Lemma null_reading_not_nan :
  let rd := example_payload [("NO2", VNull); ("PM10", VNum (num_of_Z 20));
                             ("O3", VNum (num_of_Z 60)); ("PM2.5", VNum (num_of_Z 10))] in
  In (Some VNull) (designated_values rd)
  /\ aqi_of example_runtime rd = Normal (Some "very_low", n22_5)
  /\ is_nan n22_5 = false.
Proof.
  split; [ | split]; vm_compute; [left | | ]; reflexivity.
Qed.

(** C3 (as amended).  When exactly one of the four designated readings is
    [null] and the other three are numbers, the sum takes the [null] as 0:
    the index value is the one obtained with the number 0 in its place and
    it equals the sum of the three numbers divided by 4.  It is not NaN when
    the three are finite, and it is a finite number when the sum of the
    three binary64 values is itself finite, that is, has not overflowed. *)
Theorem single_null_counts_as_zero (rt : Runtime) (rd : list (string * PayloadValue))
    (k : nat) (a b c : number) :
  (k <= 3)%nat ->
  designated_values rd = map Some (insert_at k VNull [VNum a; VNum b; VNum c]) ->
  exists v,
    aqi_of rt rd = Normal (qualitativeName_of v, v)
    /\ average rt (insert_at k (VNum pos_zero) [VNum a; VNum b; VNum c]) = Normal v
    /\ same_number v (num_div (num_add (num_add a b) c) (num_of_Z 4))
    /\ (is_finite a = true -> is_finite b = true -> is_finite c = true ->
        is_nan v = false)
    /\ (valid_binary prec emax a = true -> valid_binary prec emax b = true ->
        valid_binary prec emax c = true ->
        is_finite (num_add (num_add a b) c) = true ->
        is_finite v = true /\ is_nan v = false).
Proof.
  intros Hk Hrd.
  exists (mean (map summand (insert_at k VNull [VNum a; VNum b; VNum c]))).
  assert (Hk' : k = 0%nat \/ k = 1%nat \/ k = 2%nat \/ k = 3%nat) by lia.
  assert (Hsame : same_number (mean (map summand (insert_at k VNull [VNum a; VNum b; VNum c])))
                    (num_div (num_add (num_add a b) c) (num_of_Z 4))).
  { unfold mean.
    assert (H0 : same_number (num_add pos_zero a) a) by apply add_zero_l.
    destruct Hk' as [-> | [-> | [-> | ->]]]; cbn [insert_at firstn skipn app map summand
      numeric_operand fold_left List.length Z.of_nat Pos.of_succ_nat Pos.succ];
      change (num_of_Z 0) with pos_zero; rewrite four_is_finite; apply div_same_l.
    + change (num_add pos_zero pos_zero) with pos_zero.
      apply add_same_l, add_same_l, H0.
    + apply add_same_l, add_same_l.
      eapply same_number_trans; [apply add_zero_r | exact H0].
    + apply add_same_l.
      eapply same_number_trans; [apply add_zero_r | apply add_same_l, H0].
    + eapply same_number_trans; [apply add_zero_r | apply add_same_l, add_same_l, H0]. }
  split; [ | split; [ | split; [exact Hsame | split]]].
  - rewrite (aqi_of_average rt rd _ Hrd).
    rewrite average_mean; [reflexivity | ].
    destruct Hk' as [-> | [-> | [-> | ->]]]; repeat constructor.
  - rewrite average_mean.
    + destruct Hk' as [-> | [-> | [-> | ->]]]; reflexivity.
    + destruct Hk' as [-> | [-> | [-> | ->]]]; repeat constructor.
  - intros Ha Hb Hc. unfold mean.
    assert (Hlen : List.length (map summand (insert_at k VNull [VNum a; VNum b; VNum c])) = 4%nat)
      by (destruct Hk' as [-> | [-> | [-> | ->]]]; reflexivity).
    rewrite Hlen. simpl Z.of_nat. rewrite four_is_finite.
    apply num_div_not_nan, fold_add_not_nan; [reflexivity | ].
    destruct Hk' as [-> | [-> | [-> | ->]]]; repeat constructor; assumption.
  - intros Va Vb Vc Hsum.
    assert (Hfin : is_finite (mean (map summand (insert_at k VNull [VNum a; VNum b; VNum c])))
                   = true).
    { apply (same_number_finite _ _ Hsame).
      apply quarter_is_finite; [ | exact Hsum].
      apply num_add_valid; [apply num_add_valid | ]; assumption. }
    split; [exact Hfin | ].
    destruct (mean _); try discriminate; reflexivity.
Qed.

Lemma single_null_counts_as_zero_witness :
  exists v,
    aqi_of example_runtime
      (example_payload [("NO2", VNum (num_of_Z 20)); ("PM10", VNull);
                        ("O3", VNum (num_of_Z 60)); ("PM2.5", VNum (num_of_Z 10))])
    = Normal (qualitativeName_of v, v)
    /\ same_number v n22_5
    /\ is_finite v = true.
Proof.
  destruct (single_null_counts_as_zero example_runtime
              (example_payload [("NO2", VNum (num_of_Z 20)); ("PM10", VNull);
                                ("O3", VNum (num_of_Z 60)); ("PM2.5", VNum (num_of_Z 10))])
              1 (num_of_Z 20) (num_of_Z 60) (num_of_Z 10))
    as (v & Haqi & _ & Hsame & _ & Hfin).
  - lia.
  - vm_compute. reflexivity.
  - exists v. split; [exact Haqi | split; [exact Hsame | ]].
    apply Hfin; reflexivity.
Defined.

(** C3 as stated fails: with NO2 [null] and the three other readings at
    1e308, all finite numbers, the sum overflows and the index value is
    Infinity, which is not a finite number. *)
Lemma sum_of_three_can_overflow :
  let x := parseFloat "1e308" in
  let rd := example_payload [("NO2", VNull); ("PM10", VNum x); ("O3", VNum x);
                             ("PM2.5", VNum x)] in
  designated_values rd = map Some (insert_at 0 VNull [VNum x; VNum x; VNum x])
  /\ is_finite x = true
  /\ valid_binary prec emax x = true
  /\ aqi_of example_runtime rd = Normal (Some "very_high", S754_infinity false)
  /\ is_finite (S754_infinity false) = false.
Proof.
  split; [ | split; [ | split; [ | split]]]; vm_compute; reflexivity.
Qed.

(** C4.  On every number the five overwriting tests assign the band of the
    mutually exclusive ranges (at least 100: very_high; from 75 to below 100:
    high; from 50 to below 75: medium; from 25 to below 50: low; below 25:
    very_low), and the name stays unset exactly for NaN. *)
Theorem overwriting_tests_are_range_bands (aqi : number) :
  qualitativeName_of aqi = band_by_range aqi
  /\ (qualitativeName_of aqi = None <-> is_nan aqi = true)
  /\ qualitativeName_of NaN = None.
Proof.
  split; [apply bands_agree | split; [apply band_unset_iff_nan | reflexivity]].
Qed.

(** ** Reading one layer *)

Lemma get_named_member (rt : Runtime) (v : JsVal) (name : string) :
  get_named rt v name
  = if nullish v then Throw (typeError_message rt) else Normal (member v name).
Proof. destruct v; reflexivity. Qed.

Lemma get_index0_first (rt : Runtime) (v : JsVal) :
  get_index0 rt v
  = if nullish v then Throw (typeError_message rt) else Normal (first_element v).
Proof.
  destruct v as [ | | b | x | s | items | fields]; try reflexivity.
Qed.

(** Reading a field throws exactly when the path to [Value] ends on
    [undefined] or [null]. *)
Lemma probe_field_member (rt : Runtime) (json : JsVal) (field : string) :
  probe_field rt json field
  = if nullish (probe_Value json) then Throw (typeError_message rt)
    else Normal (member (probe_Value json) field).
Proof.
  unfold probe_field, probe_Value.
  rewrite get_named_member.
  destruct (nullish json) eqn:Hj.
  { destruct json; try discriminate; reflexivity. }
  simpl. rewrite get_index0_first.
  destruct (nullish (member json "Probes")) eqn:Hp.
  { destruct (member json "Probes"); try discriminate; reflexivity. }
  simpl. rewrite get_named_member.
  destruct (nullish (first_element (member json "Probes"))) eqn:Hf.
  { destruct (first_element (member json "Probes")); try discriminate; reflexivity. }
  simpl. apply get_named_member.
Qed.

Lemma get_ok (rt : Runtime) (w : World) (coord : number * number) (type : string)
    (json : Completion JsVal) :
  fetch w (query_url rt coord type) = FetchResponse true json ->
  get rt w coord type = Normal (reading_of type json).
Proof.
  intros H. unfold get. rewrite H. simpl.
  unfold read_probe, reading_of. destruct json as [j | m]; simpl; [ | reflexivity].
  rewrite !probe_field_member.
  destruct (nullish (probe_Value j)); reflexivity.
Qed.

Lemma get_throws (rt : Runtime) (w : World) (coord : number * number) (type message : string) :
  get rt w coord type = Throw message ->
  fetch w (query_url rt coord type) = FetchRejected message
  \/ message = "Could not fetch data".
Proof.
  unfold get. destruct (fetch w (query_url rt coord type)) as [m | ok json].
  - intros H. injection H as ->. left. reflexivity.
  - destruct ok; simpl.
    + destruct (read_probe rt type json); discriminate.
    + intros H. injection H as <-. right. reflexivity.
Qed.

(** ** The join over the promises *)

Lemma first_rejection_in {A} (order : list nat) (promises : list (Completion A))
    (message : string) :
  first_rejection order promises = Some message -> In (Throw message) promises.
Proof.
  induction order as [ | i rest IH]; simpl; [discriminate | ].
  destruct (nth_error promises i) as [[a | m] | ] eqn:Hn; try exact IH.
  intros H. injection H as ->. eapply nth_error_In, Hn.
Qed.

Lemma all_values_throw {A} (promises : list (Completion A)) (message : string) :
  all_values promises = Throw message -> In (Throw message) promises.
Proof.
  induction promises as [ | p rest IH]; simpl; [discriminate | ].
  destruct p as [a | m]; simpl.
  - destruct (all_values rest) as [xs | m'] eqn:Hr; simpl; [discriminate | ].
    intros H. injection H as ->. right. apply IH. reflexivity.
  - intros H. injection H as ->. left. reflexivity.
Qed.

Lemma all_values_rejected {A} (promises : list (Completion A)) (message : string) :
  In (Throw message) promises -> exists m, all_values promises = Throw m.
Proof.
  induction promises as [ | p rest IH]; simpl; [intros [] | ].
  intros [-> | H]; [exists message; reflexivity | ].
  destruct p as [a | m]; simpl; [ | exists m; reflexivity].
  destruct (IH H) as [m Hm]. rewrite Hm. exists m. reflexivity.
Qed.

(** The join rejects as soon as one promise does, with the reason of one of
    the rejected promises. *)
Lemma Promise_all_rejects {A} (order : list nat) (promises : list (Completion A))
    (message : string) :
  In (Throw message) promises ->
  exists m, Promise_all order promises = Throw m /\ In (Throw m) promises.
Proof.
  intros H. unfold Promise_all.
  destruct (first_rejection order promises) as [m | ] eqn:Hf.
  - exists m. split; [reflexivity | eapply first_rejection_in, Hf].
  - destruct (all_values_rejected promises message H) as [m Hm].
    exists m. split; [exact Hm | apply all_values_throw, Hm].
Qed.

Lemma Promise_all_fulfils {A B} (order : list nat) (f : A -> Completion B) (g : A -> B)
    (l : list A) :
  (forall x, In x l -> f x = Normal (g x)) ->
  Promise_all order (map f l) = Normal (map g l).
Proof.
  intros H. unfold Promise_all.
  assert (Hall : all_values (map f l) = Normal (map g l)).
  { induction l as [ | x l IH]; simpl; [reflexivity | ].
    rewrite (H x (or_introl eq_refl)). simpl.
    rewrite IH by (intros y Hy; apply H; right; exact Hy). reflexivity. }
  destruct (first_rejection order (map f l)) as [m | ] eqn:Hf; [ | exact Hall].
  apply first_rejection_in in Hf. apply in_map_iff in Hf.
  destruct Hf as (x & Hx & Hin). rewrite (H x Hin) in Hx. discriminate.
Qed.

(** ** Validation of the coordinates *)

Lemma literal_value_not_nan (l : Literal) : is_nan (literal_value l) = false.
Proof.
  destruct l as [neg | neg m e]; [reflexivity | ].
  unfold literal_value, decimal_value.
  destruct m as [ | p | p]; try reflexivity.
  destruct (0 <=? e); [apply binary_normalize_not_nan | apply div_finite_not_nan].
Qed.

(** [parseFloat] gives NaN exactly on the parameters that are missing or do
    not start with a decimal literal. *)
Lemma parseFloat_nan (p : option string) :
  is_nan (parseFloat (string_of_param p)) = negb (numeric p).
Proof.
  destruct p as [s | ]; [ | reflexivity].
  unfold parseFloat, numeric, string_of_param.
  destruct (scan_literal (trimStart s)) as [l | ]; [ | reflexivity].
  apply literal_value_not_nan.
Qed.

Lemma getAll_rejected (rt : Runtime) (w : World) (coords : number * number)
    (type message : string) :
  In type (Object_keys atmosphereTypeToLayer) ->
  get rt w coords type = Throw message ->
  exists m type',
    getAll rt w coords = Throw m
    /\ In type' (Object_keys atmosphereTypeToLayer)
    /\ get rt w coords type' = Throw m.
Proof.
  intros Hin Hget. unfold getAll.
  destruct (Promise_all_rejects (settleOrder w)
              (map (fun t => get rt w coords t) (Object_keys atmosphereTypeToLayer)) message)
    as (m & Hm & Hin').
  - rewrite <- Hget. apply in_map with (f := fun t => get rt w coords t). exact Hin.
  - apply in_map_iff in Hin'. destruct Hin' as (type' & Hg & Hk).
    exists m, type'. repeat split; assumption.
Qed.

Lemma listener_on_throw (rt : Runtime) (w : World) (event : Request) (message : string) :
  handle rt w event = Throw message ->
  fetch_listener rt w event
  = {| status := 400;
       headers := [("content-type", "text/plain;charset=UTF-8")];
       body := BodyText message |}.
Proof. intros H. unfold fetch_listener. rewrite H. reflexivity. Qed.

(** C5 (as amended).  On a request that passes validation, if one of the
    twelve upstream calls returns a non-2xx status, the response has status
    400 and a plain message for body, so no per-layer value appears in it;
    the message is exactly "Could not fetch data" when no call is rejected by
    the transport (otherwise it can be the message of such a rejection). *)
Theorem non_2xx_gives_400 (rt : Runtime) (w : World) (event : Request)
    (type : string) (json : Completion JsVal) :
  let lat := parseFloat (string_of_param (searchParams_get (req_searchParams event) "lat")) in
  let lng := parseFloat (string_of_param (searchParams_get (req_searchParams event) "lng")) in
  is_nan lat = false ->
  is_nan lng = false ->
  In type (Object_keys atmosphereTypeToLayer) ->
  fetch w (query_url rt (lng, lat) type) = FetchResponse false json ->
  exists message,
    fetch_listener rt w event
    = {| status := 400;
         headers := [("content-type", "text/plain;charset=UTF-8")];
         body := BodyText message |}
    /\ ((forall type' m, In type' (Object_keys atmosphereTypeToLayer) ->
         fetch w (query_url rt (lng, lat) type') <> FetchRejected m) ->
        message = "Could not fetch data").
Proof.
  intros lat lng Hlat Hlng Hin Hfetch.
  assert (Hget : get rt w (lng, lat) type = Throw "Could not fetch data").
  { unfold get. rewrite Hfetch. reflexivity. }
  destruct (getAll_rejected rt w (lng, lat) type _ Hin Hget) as (m & type' & Hall & Hin' & Hget').
  exists m. split.
  - apply listener_on_throw. unfold handle. fold lat. rewrite Hlat. fold lng. rewrite Hlng.
    rewrite Hall. reflexivity.
  - intros Hnone. destruct (get_throws rt w (lng, lat) type' m Hget') as [Hrej | Hm].
    + exfalso. exact (Hnone type' m Hin' Hrej).
    + exact Hm.
Qed.

Lemma non_2xx_gives_400_witness :
  exists message,
    fetch_listener example_runtime
      (example_world [("CO", FetchResponse false (Throw "no body"))] []) example_request
    = {| status := 400;
         headers := [("content-type", "text/plain;charset=UTF-8")];
         body := BodyText message |}.
Proof.
  destruct (non_2xx_gives_400 example_runtime
              (example_world [("CO", FetchResponse false (Throw "no body"))] [])
              example_request "CO" (Throw "no body"))
    as (message & H & _).
  - reflexivity.
  - reflexivity.
  - simpl. right. left. reflexivity.
  - vm_compute. reflexivity.
  - exists message. exact H.
Defined.

(** C5 as stated fails: the call for CO returns a non-2xx status, but the
    call for Pollen-Birch is rejected by the transport first, and the body
    is that rejection's message. *)
Lemma transport_message_wins :
  let w := example_world [("Pollen-Birch", FetchRejected "network down");
                          ("CO", FetchResponse false (Throw "no body"))] [0%nat; 1%nat] in
  fetch w (query_url example_runtime (pos_zero, pos_zero) "CO")
  = FetchResponse false (Throw "no body")
  /\ body (fetch_listener example_runtime w example_request) = BodyText "network down"
  /\ body (fetch_listener example_runtime w example_request) <> BodyText "Could not fetch data".
Proof.
  split; [ | split]; vm_compute; [reflexivity | reflexivity | discriminate].
Qed.

(** C6 (as amended).  When the twelve fetches all succeed, the request
    continues and each reading is determined by its own layer's body alone:
    a body that does not parse, or in which [Probes], [Probes[0]] or
    [Probes[0].Value] is missing or [null], gives [value = null] and
    [unit = null] for that pollutant only; a [Value] that is there gives its
    [Data] and [Unit], [undefined] for the one it lacks. *)
Theorem readings_are_isolated (rt : Runtime) (w : World) (coords : number * number) :
  (forall type, In type (Object_keys atmosphereTypeToLayer) ->
     exists json, fetch w (query_url rt coords type) = FetchResponse true json) ->
  getAll rt w coords
  = Normal (map (fun type => reading_of type (response_json (fetch w (query_url rt coords type))))
              (Object_keys atmosphereTypeToLayer))
  /\ (forall type json, unreadable json -> reading_of type json = null_reading type)
  /\ (forall type j, nullish (probe_Value j) = false ->
        reading_of type (Normal j)
        = {| rd_type := type;
             rd_value := member (probe_Value j) "Data";
             rd_unit := member (probe_Value j) "Unit" |}).
Proof.
  intros Hok. split; [ | split].
  - unfold getAll. apply Promise_all_fulfils.
    intros type Hin. destruct (Hok type Hin) as [json Hjson].
    rewrite (get_ok rt w coords type json Hjson), Hjson. reflexivity.
  - intros type [j | m] H; simpl in *; [rewrite H | ]; reflexivity.
  - intros type j H. simpl. rewrite H. reflexivity.
Qed.

Lemma readings_are_isolated_witness :
  getAll example_runtime
    (example_world (("CO", FetchResponse true (Throw "Unexpected token")) :: example_readings) [])
    (pos_zero, pos_zero)
  = Normal (map (fun type =>
                   reading_of type
                     (response_json
                        (upstream (("CO", FetchResponse true (Throw "Unexpected token"))
                                   :: example_readings) (ok_number 1)
                           (query_url example_runtime (pos_zero, pos_zero) type))))
              (Object_keys atmosphereTypeToLayer)).
Proof.
  refine (proj1 (readings_are_isolated example_runtime
                   (example_world (("CO", FetchResponse true (Throw "Unexpected token"))
                                   :: example_readings) [])
                   (pos_zero, pos_zero) _)).
  intros type Hin. simpl in Hin.
  repeat (destruct Hin as [<- | Hin]; [eexists; vm_compute; reflexivity | ]).
  destruct Hin.
Defined.

(** C6 as stated fails: a body whose [Value] is an empty object lacks the
    expected shape, yet its reading carries [undefined], not [null]. *)
Lemma empty_Value_reads_undefined :
  let json := VObj [("Probes", VArr [VObj [("Value", VObj [])]])] in
  let w := example_world [("NO2", FetchResponse true (Normal json))] [] in
  expected_shape json = false
  /\ get example_runtime w (pos_zero, pos_zero) "NO2"
     = Normal {| rd_type := "NO2"; rd_value := VUndefined; rd_unit := VUndefined |}
  /\ get example_runtime w (pos_zero, pos_zero) "NO2" <> Normal (null_reading "NO2").
Proof.
  split; [ | split]; vm_compute; [reflexivity | reflexivity | discriminate].
Qed.

(** C7.  A request whose [lat] is missing or not numeric is answered with
    status 400 and a plain message that names the latitude; with a numeric
    [lat], one whose [lng] is missing or not numeric is answered with status
    400 and a message that names the longitude. *)
Theorem invalid_coordinate_rejected (rt : Runtime) (w : World) (event : Request) :
  let lat := searchParams_get (req_searchParams event) "lat" in
  let lng := searchParams_get (req_searchParams event) "lng" in
  numeric lat = false \/ (numeric lat = true /\ numeric lng = false) ->
  exists message,
    status (fetch_listener rt w event) = 400
    /\ body (fetch_listener rt w event) = BodyText message
    /\ includes (if numeric lat then "longitude" else "latitude") message = true.
Proof.
  intros lat lng H.
  assert (Hthrow : exists message,
             handle rt w event = Throw message
             /\ includes (if numeric lat then "longitude" else "latitude") message = true).
  { unfold handle. fold lat. fold lng. rewrite !parseFloat_nan.
    destruct H as [Hlat | [Hlat Hlng]]; rewrite Hlat; simpl.
    - eexists. split; [reflexivity | vm_compute; reflexivity].
    - rewrite Hlng. simpl. eexists. split; [reflexivity | vm_compute; reflexivity]. }
  destruct Hthrow as (message & Hh & Hinc).
  exists message. rewrite (listener_on_throw rt w event message Hh).
  repeat split. exact Hinc.
Qed.

Lemma invalid_coordinate_rejected_witness :
  exists message,
    status (fetch_listener example_runtime (example_world [] [])
              {| req_searchParams := [("lat", "59.33"); ("lng", "north")];
                 req_headers := [] |}) = 400
    /\ includes "longitude" message = true.
Proof.
  destruct (invalid_coordinate_rejected example_runtime (example_world [] [])
              {| req_searchParams := [("lat", "59.33"); ("lng", "north")];
                 req_headers := [] |})
    as (message & Hs & _ & Hinc).
  - right. split; reflexivity.
  - exists message. split; [exact Hs | exact Hinc].
Defined.

(** ** The bounding box *)

Lemma binary_round_aux_opp (sx : bool) (mx ex : Z) (lx : location) :
  SFopp (binary_round_aux prec emax sx mx ex lx)
  = binary_round_aux prec emax (negb sx) mx ex lx.
Proof.
  unfold binary_round_aux.
  destruct (shr_fexp prec emax mx ex lx) as [mrs' e'].
  destruct (shr_fexp prec emax _ e' loc_Exact) as [mrs'' e''].
  destruct (shr_m mrs''); try reflexivity.
  destruct (e'' <=? emax - prec); reflexivity.
Qed.

Lemma num_div_neg_l (x y : number) : num_div (num_neg x) y = num_neg (num_div x y).
Proof.
  unfold num_div, num_neg.
  destruct x as [sx | sx | | sx mx ex], y as [sy | sy | | sy my ey]; simpl;
    try reflexivity; try (destruct sx, sy; reflexivity).
  destruct (SFdiv_core_binary prec emax (Zpos mx) ex (Zpos my) ey) as [[mz ez] lz].
  rewrite binary_round_aux_opp. destruct sx, sy; reflexivity.
Qed.

Lemma num_mul_neg_l (x y : number) : num_mul (num_neg x) y = num_neg (num_mul x y).
Proof.
  unfold num_mul, num_neg.
  destruct x as [sx | sx | | sx mx ex], y as [sy | sy | | sy my ey]; simpl;
    try reflexivity; try (destruct sx, sy; reflexivity).
  rewrite binary_round_aux_opp. destruct sx, sy; reflexivity.
Qed.

Lemma to_degrees_neg (x : number) : to_degrees (num_neg x) = num_neg (to_degrees x).
Proof. unfold to_degrees. rewrite num_mul_neg_l, num_div_neg_l. reflexivity. Qed.

(** C8.  [offset] computes the documented formula, with the cosine of the
    original latitude, and the bounding box sent upstream is
    [latNW, longNW, latSE, longSE] for NW = offset(center, -5000, -5000) and
    SE = offset(center, +5000, +5000); the two corners lie at opposite
    offsets from the centre. *)
Theorem bbox_from_offsets (rt : Runtime) (long lat : number) (type : string) :
  let nw := offset_formula rt long lat (num_of_Z (-5000)) (num_of_Z (-5000)) in
  let se := offset_formula rt long lat (num_of_Z 5000) (num_of_Z 5000) in
  let R := num_of_Z 6378137 in
  let dLat := to_degrees (num_div (num_of_Z 5000) R) in
  let dLon :=
    to_degrees (num_div (num_of_Z 5000)
                  (num_mul R (Math_cos rt (num_div (num_mul Math_PI lat) (num_of_Z 180))))) in
  (forall dn de, offset rt (long, lat) dn de = offset_formula rt long lat dn de)
  /\ bbox_of rt (long, lat) = [snd nw; fst nw; snd se; fst se]
  /\ searchParams_get (url_searchParams (query_url rt (long, lat) type)) "bbox"
     = Some (join "," (map (Number_toString rt) [snd nw; fst nw; snd se; fst se]))
  /\ nw = (num_add long (num_neg dLon), num_add lat (num_neg dLat))
  /\ se = (num_add long dLon, num_add lat dLat).
Proof.
  intros nw se R dLat dLon.
  assert (Hneg : num_of_Z (-5000) = num_neg (num_of_Z 5000)) by reflexivity.
  split; [reflexivity | split; [ | split; [ | split]]].
  - unfold bbox_of. rewrite <- Hneg. reflexivity.
  - unfold query_url. cbn -[bbox_of join map]. unfold bbox_of. rewrite <- Hneg. reflexivity.
  - subst nw dLat dLon. unfold offset_formula. rewrite Hneg.
    rewrite !num_div_neg_l, !to_degrees_neg. reflexivity.
  - reflexivity.
Qed.

(** On the equator, where the cosine is 1, both offsets are
    5000 / 6378137 * 180 / pi = 0.04491576420597608 degrees. *)
Example equator_box :
  bbox_of example_runtime (pos_zero, pos_zero)
  = map parseFloat ["-0.04491576420597608"; "-0.04491576420597608";
                    "0.04491576420597608"; "0.04491576420597608"].
Proof. vm_compute. reflexivity. Qed.

(** ** The expiry time *)

Lemma nextHour_hour (t : Z) : nextHour t = HourFromTime t + 1.
Proof.
  unfold nextHour, getUTCHours, HourFromTime.
  pose proof (Z.mod_pos_bound (t / msPerHour) 24 ltac:(lia)) as H.
  destruct (Z.ltb_spec ((t / msPerHour) mod 24) 24); [reflexivity | lia].
Qed.

(** The date after the three setters: the hour after [t2]'s on the day of
    [t1], with the milliseconds of [t1]. *)
Lemma expiry_time (t1 t2 : Z) :
  Day t1 = Day t2 ->
  setUTCSeconds (setUTCMinutes (setUTCHours t1 (nextHour t2)) 0) 0
  = top_of_next_hour t2 + msFromTime t1.
Proof.
  rewrite nextHour_hour.
  unfold setUTCSeconds, setUTCMinutes, setUTCHours, top_of_next_hour, MakeDate, MakeTime,
    Day, HourFromTime, MinFromTime, SecFromTime, msFromTime,
    msPerDay, msPerHour, msPerMinute, msPerSecond.
  intros Hday. Z.to_euclidean_division_equations. lia.
Qed.

Lemma toUTCString_drops_ms (t ms : Z) :
  t mod msPerSecond = 0 -> 0 <= ms < msPerSecond -> toUTCString (t + ms) = toUTCString t.
Proof.
  unfold msPerSecond. intros Ht Hms.
  assert (HD : Day (t + ms) = Day t)
    by (unfold Day, msPerDay; Z.to_euclidean_division_equations; lia).
  assert (HH : HourFromTime (t + ms) = HourFromTime t)
    by (unfold HourFromTime, msPerHour; Z.to_euclidean_division_equations; lia).
  assert (HM : MinFromTime (t + ms) = MinFromTime t)
    by (unfold MinFromTime, msPerMinute; Z.to_euclidean_division_equations; lia).
  assert (HS : SecFromTime (t + ms) = SecFromTime t)
    by (unfold SecFromTime, msPerSecond; Z.to_euclidean_division_equations; lia).
  unfold toUTCString. rewrite HD, HH, HM, HS. reflexivity.
Qed.

Lemma expiry_string (t1 t2 : Z) :
  Day t1 = Day t2 ->
  toUTCString (setUTCSeconds (setUTCMinutes (setUTCHours t1 (nextHour t2)) 0) 0)
  = toUTCString (top_of_next_hour t2).
Proof.
  intros H. rewrite (expiry_time t1 t2 H). apply toUTCString_drops_ms.
  - unfold top_of_next_hour, msPerHour, msPerSecond.
    Z.to_euclidean_division_equations. lia.
  - unfold msFromTime, msPerSecond. apply Z.mod_pos_bound. lia.
Qed.

(** ** Headers *)

Lemma handle_success (rt : Runtime) (w : World) (event : Request) (response : Response) :
  handle rt w event = Normal response ->
  status response = 200 /\ headers response = [("content-type", "application/json")].
Proof.
  unfold handle.
  destruct (is_nan _); [discriminate | ].
  destruct (is_nan _); [discriminate | ].
  destruct (getAll rt w _) as [atmosphereData | m]; simpl; [ | discriminate].
  destruct (aqi_of rt _) as [[qualitativeName aqi] | m]; simpl; [ | discriminate].
  intros H. injection H as <-. split; reflexivity.
Qed.

(** C9 (as amended).  A success response (status 200) carries
    content-type: application/json, Access-Control-Allow-Origin: *,
    Access-Control-Request-Method: GET and an Expires header set to the top
    of the next UTC hour, the listener's two clock readings falling on the
    same UTC day; an error response (status 400) carries none of them, only
    the default plain-text content type. *)
Theorem response_headers (rt : Runtime) (w : World) (event : Request) :
  Day (now_d w) = Day (now_nextHour w) ->
  let r := fetch_listener rt w event in
  match handle rt w event with
  | Normal _ =>
      status r = 200
      /\ headers_get (headers r) "content-type" = Some "application/json"
      /\ headers_get (headers r) "Access-Control-Allow-Origin" = Some "*"
      /\ headers_get (headers r) "Access-Control-Request-Method" = Some "GET"
      /\ headers_get (headers r) "Expires"
         = Some (toUTCString (top_of_next_hour (now_nextHour w)))
  | Throw _ =>
      status r = 400
      /\ headers r = [("content-type", "text/plain;charset=UTF-8")]
  end.
Proof.
  intros Hday r. subst r. unfold fetch_listener.
  destruct (handle rt w event) as [response | message] eqn:Hh.
  - destruct (handle_success rt w event response Hh) as [Hs Hhd].
    rewrite (expiry_string _ _ Hday).
    generalize (toUTCString (top_of_next_hour (now_nextHour w))). intros expires.
    unfold headers_set. cbn [status headers]. rewrite Hs, Hhd.
    repeat split; reflexivity.
  - split; reflexivity.
Qed.

Lemma response_headers_witness :
  headers_get
    (headers (fetch_listener example_runtime (example_world example_readings []) example_request))
    "Expires"
  = Some "Tue, 14 Nov 2023 23:00:00 GMT".
Proof.
  pose proof (response_headers example_runtime (example_world example_readings [])
                example_request eq_refl) as H.
  cbv zeta in H.
  replace (handle example_runtime (example_world example_readings []) example_request)
    with (Normal (A := Response)
            {| status := 200;
               headers := [("content-type", "application/json")];
               body := BodyJson
                         (assign "aqi" (AqiEntry (Some "low") n32_5)
                            (example_payload
                               [("NO2", VNum (num_of_Z 40)); ("PM10", VNum (num_of_Z 20));
                                ("O3", VNum (num_of_Z 60)); ("PM2.5", VNum (num_of_Z 10))]))
                         (Some 4) |}) in H
    by (vm_compute; reflexivity).
  destruct H as (_ & _ & _ & _ & H). exact H.
Defined.

(** C9 as stated fails: the response to a request without [lat] has no
    Expires header and names text/plain as its content type. *)
Lemma error_response_lacks_headers :
  let r := fetch_listener example_runtime (example_world [] [])
             {| req_searchParams := [("lng", "0")]; req_headers := [] |} in
  status r = 400
  /\ headers_get (headers r) "Expires" = None
  /\ headers_get (headers r) "Access-Control-Allow-Origin" = None
  /\ headers_get (headers r) "Access-Control-Request-Method" = None
  /\ headers_get (headers r) "content-type" <> Some "application/json".
Proof.
  split; [ | split; [ | split; [ | split]]]; vm_compute; try reflexivity; discriminate.
Qed.

(** ** The layer catalog *)

Lemma query_layers_param (rt : Runtime) (coord : number * number) (type : string) :
  searchParams_get (url_searchParams (query_url rt coord type)) "query_layers"
  = Some (layer_of rt type).
Proof. reflexivity. Qed.

Lemma layers_param (rt : Runtime) (coord : number * number) (type : string) :
  searchParams_get (url_searchParams (query_url rt coord type)) "layers"
  = Some (layer_of rt type).
Proof. reflexivity. Qed.

(** C10 (as amended).  The query builder never signals a configuration
    error.  For a type that is not a key of the catalog the lookup finds no
    layer and the query is issued all the same, with [layers] and
    [query_layers] both set to the string form of what the lookup gave: the
    string "undefined" for a name that no object defines, and for a name
    that [Object.prototype] defines (such as toString) the string form of
    that inherited property.  The reading then comes from the response as
    for any layer. *)
Theorem unknown_type_is_still_queried (rt : Runtime) (w : World) (coord : number * number)
    (type : string) (json : Completion JsVal) :
  lookup type atmosphereTypeToLayer = None ->
  fetch w (query_url rt coord type) = FetchResponse true json ->
  let layer := match Object_prototype rt type with
               | Some inherited => inherited
               | None => "undefined"
               end in
  searchParams_get (url_searchParams (query_url rt coord type)) "layers" = Some layer
  /\ searchParams_get (url_searchParams (query_url rt coord type)) "query_layers" = Some layer
  /\ (Object_prototype rt type = None -> layer = "undefined")
  /\ get rt w coord type = Normal (reading_of type json).
Proof.
  intros Hlookup Hfetch layer.
  assert (Hlayer : layer_of rt type = layer).
  { unfold layer_of. rewrite Hlookup. reflexivity. }
  split; [ | split; [ | split]].
  - rewrite layers_param, Hlayer. reflexivity.
  - rewrite query_layers_param, Hlayer. reflexivity.
  - intros Hnone. subst layer. rewrite Hnone. reflexivity.
  - apply get_ok, Hfetch.
Qed.

Lemma unknown_type_is_still_queried_witness :
  searchParams_get
    (url_searchParams (query_url example_runtime (pos_zero, pos_zero) "Ozone")) "layers"
  = Some "undefined"
  /\ searchParams_get
       (url_searchParams (query_url example_runtime (pos_zero, pos_zero) "Ozone")) "query_layers"
     = Some "undefined"
  /\ get example_runtime (example_world [] []) (pos_zero, pos_zero) "Ozone"
     = Normal {| rd_type := "Ozone"; rd_value := VNum (num_of_Z 1); rd_unit := VStr "ug/m3" |}.
Proof.
  destruct (unknown_type_is_still_queried example_runtime (example_world [] [])
              (pos_zero, pos_zero) "Ozone"
              (Normal (probe_body (VNum (num_of_Z 1)) (VStr "ug/m3"))))
    as (Hl & Hq & _ & Hg).
  - reflexivity.
  - vm_compute. reflexivity.
  - split; [exact Hl | split; [exact Hq | exact Hg]].
Defined.

(** With a runtime whose [Object.prototype] has [toString], the type
    "toString" is queried under that function's string form. *)
Example inherited_name_is_queried :
  lookup "toString" atmosphereTypeToLayer = None
  /\ searchParams_get
       (url_searchParams (query_url prototype_runtime (pos_zero, pos_zero) "toString"))
       "layers"
     = Some "function toString() { [native code] }"
  /\ searchParams_get
       (url_searchParams (query_url prototype_runtime (pos_zero, pos_zero) "toString"))
       "query_layers"
     = Some "function toString() { [native code] }".
Proof. split; [ | split]; reflexivity. Qed.

(** C10 as stated fails: "Ozone" is not a key of the catalog, and [get]
    does not fail on it. *)
Lemma unknown_type_does_not_fail :
  lookup "Ozone" atmosphereTypeToLayer = None
  /\ get example_runtime (example_world [] []) (pos_zero, pos_zero) "Ozone"
     = Normal {| rd_type := "Ozone"; rd_value := VNum (num_of_Z 1); rd_unit := VStr "ug/m3" |}
  /\ forall message,
       get example_runtime (example_world [] []) (pos_zero, pos_zero) "Ozone" <> Throw message.
Proof.
  split; [reflexivity | split; [vm_compute; reflexivity | ]].
  intros message. vm_compute. discriminate.
Qed.

(** * Further properties of the code *)

(** ** The expiry date *)

Lemma hour_bounds (t : Z) : 0 <= HourFromTime t < 24.
Proof. unfold HourFromTime. apply Z.mod_pos_bound. lia. Qed.

(** The three setters leave the day of the first reading, the hour after
    the second reading's, and the milliseconds of the first. *)
Lemma expires_at_value (w : World) :
  expires_at w
  = Day (now_d w) * msPerDay + (HourFromTime (now_nextHour w) + 1) * msPerHour
    + msFromTime (now_d w).
Proof.
  unfold expires_at. rewrite nextHour_hour.
  pose proof (hour_bounds (now_nextHour w)) as Hh.
  revert Hh. generalize (HourFromTime (now_nextHour w)). intros h Hh.
  unfold setUTCSeconds, setUTCMinutes, setUTCHours, MakeDate, MakeTime,
    Day, HourFromTime, MinFromTime, SecFromTime, msFromTime,
    msPerDay, msPerHour, msPerMinute, msPerSecond.
  Z.to_euclidean_division_equations. lia.
Qed.

(** X1.  [nextHour] never takes its wrap-around branch: it returns the
    current UTC hour plus one, a value from 1 to 24 and never 0. *)
Theorem nextHour_never_wraps (t : Z) :
  nextHour t = getUTCHours t + 1 /\ 1 <= nextHour t <= 24 /\ nextHour t <> 0.
Proof.
  rewrite nextHour_hour. unfold getUTCHours.
  pose proof (hour_bounds t). repeat split; lia.
Qed.

(** X2.  On a success response the Expires header is the string of a date
    with zero minutes and seconds; when the two clock readings fall on the
    same UTC day that date is later than the second reading, by at most an
    hour and a second, and its hour is the one after the reading's (0 after
    23, on the next day). *)
Theorem expiry_is_ahead (rt : Runtime) (w : World) (event : Request) (response : Response) :
  handle rt w event = Normal response ->
  Day (now_d w) = Day (now_nextHour w) ->
  let d := expires_at w in
  headers_get (headers (fetch_listener rt w event)) "Expires" = Some (toUTCString d)
  /\ MinFromTime d = 0 /\ SecFromTime d = 0
  /\ now_nextHour w < d < now_nextHour w + msPerHour + msPerSecond
  /\ HourFromTime d = (HourFromTime (now_nextHour w) + 1) mod 24
  /\ Day d = Day (now_nextHour w) + (if HourFromTime (now_nextHour w) =? 23 then 1 else 0).
Proof.
  intros Hh Hday d.
  split.
  { unfold fetch_listener. rewrite Hh.
    destruct (handle_success rt w event response Hh) as [Hs Hhd].
    fold (expires_at w). fold d. generalize (toUTCString d). intros e.
    unfold headers_set. cbn [status headers]. rewrite Hhd. reflexivity. }
  subst d. rewrite expires_at_value. rewrite Hday.
  pose proof (hour_bounds (now_nextHour w)) as Hb.
  destruct (Z.eqb_spec (HourFromTime (now_nextHour w)) 23) as [H23 | H23];
    revert Hb H23;
    unfold Day, HourFromTime, MinFromTime, SecFromTime, msFromTime,
      msPerDay, msPerHour, msPerMinute, msPerSecond;
    intros Hb H23; Z.to_euclidean_division_equations; lia.
Qed.

Lemma expiry_is_ahead_witness :
  headers_get
    (headers (fetch_listener example_runtime (example_world example_readings []) example_request))
    "Expires"
  = Some (toUTCString (expires_at (example_world example_readings []))).
Proof.
  refine (proj1 (expiry_is_ahead example_runtime (example_world example_readings [])
                   example_request
                   (match handle example_runtime (example_world example_readings [])
                            example_request with
                    | Normal r => r
                    | Throw _ => errorResponse ""
                    end) _ eq_refl)).
  vm_compute. reflexivity.
Defined.

(** X3.  When midnight UTC passes between the listener's two clock
    readings, the date put in Expires lies in the past, more than 22 hours
    before the second reading. *)
Theorem expiry_across_midnight_is_past (w : World) :
  Day (now_nextHour w) = Day (now_d w) + 1 ->
  expires_at w < now_nextHour w - 22 * msPerHour.
Proof.
  intros Hday. rewrite expires_at_value.
  revert Hday.
  unfold Day, HourFromTime, msFromTime, msPerDay, msPerHour, msPerSecond.
  intros Hday. Z.to_euclidean_division_equations. lia.
Qed.

Lemma expiry_across_midnight_is_past_witness :
  toUTCString (now_nextHour midnight_world) = "Wed, 15 Nov 2023 00:00:00 GMT"
  /\ toUTCString (expires_at midnight_world) = "Tue, 14 Nov 2023 01:00:00 GMT"
  /\ expires_at midnight_world < now_nextHour midnight_world - 22 * msPerHour.
Proof.
  split; [vm_compute; reflexivity | split; [vm_compute; reflexivity | ]].
  apply (expiry_across_midnight_is_past midnight_world). reflexivity.
Defined.

(** ** The listener's two kinds of response *)

Lemma handle_body (rt : Runtime) (w : World) (event : Request) (response : Response) :
  handle rt w event = Normal response ->
  exists payload, body response = BodyJson payload (indent_for event).
Proof.
  unfold handle, indent_for.
  destruct (is_nan _); [discriminate | ].
  destruct (is_nan _); [discriminate | ].
  destruct (getAll rt w _) as [atmosphereData | m]; simpl; [ | discriminate].
  destruct (aqi_of rt _) as [[qualitativeName aqi] | m]; simpl; [ | discriminate].
  intros H. injection H as <-. simpl.
  destruct (headers_get (req_headers event) "origin"); eexists; reflexivity.
Qed.

(** X4.  Every response of the listener is either a 200 with a JSON
    payload, or a 400 whose body is, verbatim, the message of the error that
    [handle] threw; no other status is ever produced. *)
Theorem listener_answers_200_or_400 (rt : Runtime) (w : World) (event : Request) :
  let r := fetch_listener rt w event in
  (status r = 200
   /\ (exists response, handle rt w event = Normal response)
   /\ exists payload, body r = BodyJson payload (indent_for event))
  \/ (status r = 400
      /\ exists message, handle rt w event = Throw message /\ body r = BodyText message).
Proof.
  intros r. subst r. unfold fetch_listener.
  destruct (handle rt w event) as [response | message] eqn:Hh.
  - left. destruct (handle_success rt w event response Hh) as [Hs _].
    destruct (handle_body rt w event response Hh) as [payload Hb].
    split; [exact Hs | split; [exists response; reflexivity | ]].
    exists payload. exact Hb.
  - right. split; [reflexivity | ]. exists message. split; reflexivity.
Qed.

(** ** Validation comes first *)

(** X5.  A request whose [lat] or [lng] is missing or not numeric is
    answered without consulting the upstream service or the clock: the
    response is the same in every world, a 400 whose body is the latitude
    message when [lat] is at fault and otherwise the longitude message,
    which itself names the "lat" parameter and never "lng". *)
Theorem invalid_request_never_reaches_upstream (rt : Runtime) (w w' : World)
    (event : Request) :
  let lat := searchParams_get (req_searchParams event) "lat" in
  let lng := searchParams_get (req_searchParams event) "lng" in
  numeric lat = false \/ numeric lng = false ->
  fetch_listener rt w event = fetch_listener rt w' event
  /\ status (fetch_listener rt w event) = 400
  /\ body (fetch_listener rt w event)
     = BodyText (if numeric lat then longitude_message else latitude_message)
  /\ includes (dquote ++ "lng" ++ dquote) longitude_message = false
  /\ includes (dquote ++ "lat" ++ dquote) longitude_message = true.
Proof.
  intros lat lng H.
  assert (Hthrow : forall w0,
             handle rt w0 event
             = Throw (if numeric lat then longitude_message else latitude_message)).
  { intros w0. unfold handle. fold lat. fold lng. rewrite !parseFloat_nan.
    destruct (numeric lat) eqn:Hlat; simpl; [ | reflexivity].
    destruct H as [H | H]; [discriminate | ]. rewrite H. reflexivity. }
  rewrite !(listener_on_throw rt _ event _ (Hthrow _)).
  split; [reflexivity | split; [reflexivity | split; [reflexivity | ]]].
  split; vm_compute; reflexivity.
Qed.

Lemma invalid_request_never_reaches_upstream_witness :
  fetch_listener example_runtime (example_world [] [])
    {| req_searchParams := [("lat", "59.33")]; req_headers := [] |}
  = fetch_listener example_runtime midnight_world
      {| req_searchParams := [("lat", "59.33")]; req_headers := [] |}.
Proof.
  refine (proj1 (invalid_request_never_reaches_upstream example_runtime
                   (example_world [] []) midnight_world
                   {| req_searchParams := [("lat", "59.33")]; req_headers := [] |} _)).
  right. reflexivity.
Defined.

(** ** One layer, twelve layers *)

(** X6.  [get] rejects in exactly two cases: the fetch itself is rejected,
    and the reason is passed on unchanged, or the response is not ok, and
    the reason is "Could not fetch data".  On an ok response it always
    fulfils, with a reading of the requested type, whatever the body. *)
Theorem get_rejects_exactly (rt : Runtime) (w : World) (coord : number * number)
    (type : string) :
  (forall message,
     get rt w coord type = Throw message <->
     fetch w (query_url rt coord type) = FetchRejected message
     \/ (message = "Could not fetch data"
         /\ exists json, fetch w (query_url rt coord type) = FetchResponse false json))
  /\ (forall reading, get rt w coord type = Normal reading -> rd_type reading = type).
Proof.
  split.
  - intros message. unfold get.
    destruct (fetch w (query_url rt coord type)) as [m | ok json].
    + split.
      * intros H. injection H as ->. left. reflexivity.
      * intros [H | (_ & json & H)]; [injection H as -> | discriminate]. reflexivity.
    + destruct ok; simpl.
      * split.
        -- destruct (read_probe rt type json); discriminate.
        -- intros [H | (_ & json' & H)]; discriminate.
      * split.
        -- intros H. injection H as <-. right. split; [reflexivity | ].
           exists json. reflexivity.
        -- intros [H | (-> & _)]; [discriminate | reflexivity].
  - intros reading. unfold get.
    destruct (fetch w (query_url rt coord type)) as [m | ok json]; [discriminate | ].
    destruct ok; simpl; [ | discriminate].
    unfold read_probe. destruct json as [j | m]; simpl.
    + destruct (probe_field rt j "Data"); simpl.
      * destruct (probe_field rt j "Unit"); simpl; intros H; injection H as <-; reflexivity.
      * intros H; injection H as <-; reflexivity.
    + intros H; injection H as <-; reflexivity.
Qed.

Lemma all_values_normal {A} (promises : list (Completion A)) (xs : list A) :
  all_values promises = Normal xs -> promises = map Normal xs.
Proof.
  revert xs. induction promises as [ | p rest IH]; simpl; intros xs H.
  - injection H as <-. reflexivity.
  - destruct p as [a | m]; simpl in H; [ | discriminate].
    destruct (all_values rest) as [ys | m]; simpl in H; [ | discriminate].
    injection H as <-. simpl. rewrite (IH ys eq_refl). reflexivity.
Qed.

Lemma Promise_all_normal {A} (order : list nat) (promises : list (Completion A))
    (xs : list A) :
  Promise_all order promises = Normal xs -> promises = map Normal xs.
Proof.
  unfold Promise_all. destruct (first_rejection order promises); [discriminate | ].
  apply all_values_normal.
Qed.

Lemma getAll_gets (rt : Runtime) (w : World) (coords : number * number)
    (readings : list Reading) :
  getAll rt w coords = Normal readings ->
  map (fun type => get rt w coords type) (Object_keys atmosphereTypeToLayer)
  = map Normal readings.
Proof. unfold getAll. apply Promise_all_normal. Qed.

Lemma getAll_ok (rt : Runtime) (w : World) (coords : number * number) :
  (forall type, In type (Object_keys atmosphereTypeToLayer) ->
     exists json, fetch w (query_url rt coords type) = FetchResponse true json) ->
  getAll rt w coords
  = Normal (map (fun type => reading_of type (response_json (fetch w (query_url rt coords type))))
              (Object_keys atmosphereTypeToLayer)).
Proof.
  intros Hok. unfold getAll. apply Promise_all_fulfils.
  intros type Hin. destruct (Hok type Hin) as [json Hjson].
  rewrite (get_ok rt w coords type json Hjson), Hjson. reflexivity.
Qed.

Lemma getAll_normal_ok (rt : Runtime) (w : World) (coords : number * number)
    (readings : list Reading) :
  getAll rt w coords = Normal readings ->
  forall type, In type (Object_keys atmosphereTypeToLayer) ->
    exists json, fetch w (query_url rt coords type) = FetchResponse true json.
Proof.
  intros H type Hin.
  pose proof (getAll_gets rt w coords readings H) as Hmap.
  assert (Hget : In (get rt w coords type) (map Normal readings)).
  { rewrite <- Hmap. apply in_map with (f := fun t => get rt w coords t). exact Hin. }
  apply in_map_iff in Hget. destruct Hget as (r & Hr & _).
  unfold get in Hr.
  destruct (fetch w (query_url rt coords type)) as [m | ok json]; [discriminate | ].
  destruct ok; [exists json; reflexivity | discriminate].
Qed.

(** X7.  The join is all or nothing: [getAll] fulfils if and only if every
    one of the twelve fetches resolves to an ok response, whatever the
    bodies and whatever the order in which the promises settle. *)
Theorem getAll_fulfils_iff_all_ok (rt : Runtime) (w : World) (coords : number * number) :
  (exists readings, getAll rt w coords = Normal readings)
  <-> (forall type, In type (Object_keys atmosphereTypeToLayer) ->
         exists json, fetch w (query_url rt coords type) = FetchResponse true json).
Proof.
  split.
  - intros [readings H]. exact (getAll_normal_ok rt w coords readings H).
  - intros Hok. eexists. apply getAll_ok, Hok.
Qed.

Lemma getAll_keeps_key_order_aux (rt : Runtime) (w : World) (coords : number * number)
    (readings : list Reading) :
  getAll rt w coords = Normal readings ->
  map rd_type readings = Object_keys atmosphereTypeToLayer.
Proof.
  intros H. pose proof (getAll_gets rt w coords readings H) as Hmap.
  clear H. revert readings Hmap.
  induction (Object_keys atmosphereTypeToLayer) as [ | type keys IH];
    intros [ | r rs] Hmap; try discriminate; [reflexivity | ].
  simpl in Hmap. injection Hmap as Hr Hrs. simpl.
  rewrite (IH rs Hrs). f_equal.
  unfold get in Hr.
  destruct (fetch w (query_url rt coords type)) as [m | ok json]; [discriminate | ].
  destruct ok; simpl in Hr; [ | discriminate].
  unfold read_probe in Hr. destruct json as [j | m]; simpl in Hr.
  - destruct (probe_field rt j "Data"); simpl in Hr.
    + destruct (probe_field rt j "Unit"); simpl in Hr; injection Hr as <-; reflexivity.
    + injection Hr as <-; reflexivity.
  - injection Hr as <-; reflexivity.
Qed.

(** X8.  When [getAll] fulfils, its value has one reading per catalog key,
    in the order of [Object.keys]: twelve readings whose types are the
    twelve keys, first Pollen-Birch and last SO2. *)
Theorem getAll_keeps_key_order (rt : Runtime) (w : World) (coords : number * number)
    (readings : list Reading) :
  getAll rt w coords = Normal readings ->
  map rd_type readings = Object_keys atmosphereTypeToLayer
  /\ List.length readings = 12%nat.
Proof.
  intros H.
  pose proof (getAll_keeps_key_order_aux rt w coords readings H) as Htypes.
  split; [exact Htypes | ].
  rewrite <- (length_map rd_type), Htypes. reflexivity.
Qed.

Lemma getAll_keeps_key_order_witness :
  exists readings,
    getAll example_runtime (example_world example_readings [3%nat; 1%nat]) (pos_zero, pos_zero)
    = Normal readings
    /\ map rd_type readings = Object_keys atmosphereTypeToLayer.
Proof.
  eexists. split; [vm_compute; reflexivity | ].
  refine (proj1 (getAll_keeps_key_order example_runtime
                   (example_world example_readings [3%nat; 1%nat]) (pos_zero, pos_zero) _ _)).
  vm_compute. reflexivity.
Defined.

(** ** The order in which the promises settle *)

Lemma Promise_all_any_order {A} (order order' : list nat) (promises : list (Completion A))
    (xs : list A) :
  Promise_all order promises = Normal xs -> Promise_all order' promises = Normal xs.
Proof.
  intros H. apply Promise_all_normal in H. subst promises.
  pose proof (Promise_all_fulfils order' (@Normal A) (fun x => x) xs
                (fun x _ => eq_refl)) as H.
  rewrite map_id in H. exact H.
Qed.

Lemma handle_any_order (rt : Runtime) (w : World) (order : list nat) (event : Request)
    (response : Response) :
  handle rt w event = Normal response ->
  handle rt (with_settleOrder w order) event = Normal response.
Proof.
  unfold handle.
  destruct (is_nan _); [discriminate | ].
  destruct (is_nan _); [discriminate | ].
  destruct (getAll rt w _) as [atmosphereData | m] eqn:Hall; simpl; [ | discriminate].
  unfold getAll in *. cbn [settleOrder with_settleOrder].
  change (fun type => get rt (with_settleOrder w order) ?c type)
    with (fun type => get rt w c type).
  rewrite (Promise_all_any_order _ order _ _ Hall). simpl. intros H. exact H.
Qed.

(** X9.  The order in which the twelve promises settle decides nothing but
    the message of an error: in whatever order they settle the status is the
    same, and a 200 response is the same response. *)
Theorem settle_order_changes_only_the_message (rt : Runtime) (w : World)
    (order : list nat) (event : Request) :
  let r := fetch_listener rt w event in
  let r' := fetch_listener rt (with_settleOrder w order) event in
  status r' = status r /\ (status r = 200 \/ status r' = 200 -> r' = r).
Proof.
  intros r r'. subst r r'. unfold fetch_listener.
  destruct (handle rt w event) as [response | message] eqn:Hh.
  - rewrite (handle_any_order rt w order event response Hh). split; [reflexivity | ].
    intros _. reflexivity.
  - destruct (handle rt (with_settleOrder w order) event) as [response' | message'] eqn:Hh'.
    + pose proof (handle_any_order rt (with_settleOrder w order) (settleOrder w)
                    event response' Hh') as Hback.
      replace (with_settleOrder (with_settleOrder w order) (settleOrder w)) with w in Hback
        by (destruct w; reflexivity).
      rewrite Hback in Hh. discriminate.
    + split; [reflexivity | ]. intros [H | H]; discriminate.
Qed.

(** ** The payload *)

Lemma lookup_assign_same {A} (key : string) (v : A) (o : list (string * A)) :
  lookup key (assign key v o) = Some v.
Proof.
  induction o as [ | [k w] r IH]; simpl.
  - rewrite String.eqb_refl. reflexivity.
  - destruct (String.eqb k key) eqn:Hk; simpl.
    + rewrite String.eqb_refl. reflexivity.
    + rewrite Hk. exact IH.
Qed.

Lemma lookup_remove_other {A} (key key' : string) (o : list (string * A)) :
  key' <> key -> lookup key' (remove_key key o) = lookup key' o.
Proof.
  intros Hne. induction o as [ | [k w] r IH]; simpl; [reflexivity | ].
  destruct (String.eqb_spec k key) as [-> | Hk]; simpl.
  - destruct (String.eqb_spec key key') as [<- | _]; [contradiction | exact IH].
  - rewrite IH. reflexivity.
Qed.

Lemma lookup_assign_other {A} (key key' : string) (v : A) (o : list (string * A)) :
  key' <> key -> lookup key' (assign key v o) = lookup key' o.
Proof.
  intros Hne. induction o as [ | [k w] r IH]; simpl.
  - destruct (String.eqb_spec key key') as [<- | _]; [contradiction | reflexivity].
  - destruct (String.eqb_spec k key) as [-> | Hk]; simpl.
    + destruct (String.eqb_spec key key') as [<- | _]; [contradiction | ].
      apply lookup_remove_other, Hne.
    + rewrite IH. reflexivity.
Qed.

Lemma assign_new {A} (key : string) (v : A) (o : list (string * A)) :
  ~ In key (map fst o) -> assign key v o = (o ++ [(key, v)])%list.
Proof.
  induction o as [ | [k w] r IH]; simpl; intros Hnot; [reflexivity | ].
  destruct (String.eqb_spec k key) as [-> | Hk].
  - exfalso. apply Hnot. left. reflexivity.
  - rewrite IH by (intros Hin; apply Hnot; right; exact Hin). reflexivity.
Qed.

Lemma collect_snoc (readings : list Reading) (r : Reading) :
  collect (readings ++ [r])
  = assign (rd_type r) (LayerEntry (rd_unit r) (rd_value r)) (collect readings).
Proof. unfold collect. rewrite fold_left_app. reflexivity. Qed.

(** X10.  The [reduce] of [handle] keeps, for each type, the entry of the
    last reading of that type (its unit and value), and no entry for a type
    that no reading has. *)
Theorem collect_keeps_last_reading (readings : list Reading) (type : string) :
  lookup type (collect readings)
  = option_map (fun r => LayerEntry (rd_unit r) (rd_value r)) (last_reading type readings).
Proof.
  unfold last_reading.
  induction readings as [ | r readings IH] using rev_ind; [reflexivity | ].
  rewrite collect_snoc, rev_app_distr. simpl.
  destruct (String.eqb_spec (rd_type r) type) as [<- | Hne].
  - apply lookup_assign_same.
  - rewrite lookup_assign_other by congruence. exact IH.
Qed.

Lemma collect_distinct (readings : list Reading) :
  NoDup (map rd_type readings) -> collect readings = map layer_entry readings.
Proof.
  induction readings as [ | r readings IH] using rev_ind; intros Hnd; [reflexivity | ].
  rewrite map_app in Hnd. simpl in Hnd.
  apply NoDup_remove in Hnd. rewrite app_nil_r in Hnd. destruct Hnd as [Hnd Hnot].
  rewrite collect_snoc, (IH Hnd), map_app. simpl.
  apply assign_new. rewrite map_map. exact Hnot.
Qed.

Lemma catalog_keys_distinct : NoDup (Object_keys atmosphereTypeToLayer).
Proof.
  unfold Object_keys. simpl.
  repeat (constructor; [simpl; intuition discriminate | ]). constructor.
Qed.

(** X11.  The payload of every success response has thirteen entries: for
    each of the twelve readings, in catalog order, its unit and value under
    its type, then [aqi] last, holding the index that the aggregator
    computes from those entries; the indent is 4 without an Origin header
    and absent with one. *)
Theorem success_payload (rt : Runtime) (w : World) (event : Request) (response : Response) :
  let lat := parseFloat (string_of_param (searchParams_get (req_searchParams event) "lat")) in
  let lng := parseFloat (string_of_param (searchParams_get (req_searchParams event) "lng")) in
  handle rt w event = Normal response ->
  exists readings qualitativeName aqi,
    getAll rt w (lng, lat) = Normal readings
    /\ aqi_of rt (map layer_entry readings) = Normal (qualitativeName, aqi)
    /\ body response
       = BodyJson (map layer_entry readings ++ [("aqi", AqiEntry qualitativeName aqi)])
           (indent_for event)
    /\ Object_keys (map layer_entry readings ++ [("aqi", AqiEntry qualitativeName aqi)])
       = (Object_keys atmosphereTypeToLayer ++ ["aqi"])%list.
Proof.
  intros lat lng. unfold handle. fold lat. fold lng.
  destruct (is_nan lat); [discriminate | ].
  destruct (is_nan lng); [discriminate | ].
  destruct (getAll rt w (lng, lat)) as [readings | m] eqn:Hall; simpl; [ | discriminate].
  pose proof (getAll_keeps_key_order_aux rt w (lng, lat) readings Hall) as Htypes.
  assert (Hcollect : collect readings = map layer_entry readings).
  { apply collect_distinct. rewrite Htypes. apply catalog_keys_distinct. }
  rewrite Hcollect.
  destruct (aqi_of rt (map layer_entry readings)) as [[qualitativeName aqi] | m] eqn:Haqi;
    simpl; [ | discriminate].
  intros H. injection H as <-.
  exists readings, qualitativeName, aqi.
  assert (Hkeys : map fst (map layer_entry readings) = Object_keys atmosphereTypeToLayer).
  { rewrite map_map. exact Htypes. }
  split; [reflexivity | split; [exact Haqi | split]].
  - simpl. rewrite assign_new.
    + unfold indent_for. destruct (headers_get (req_headers event) "origin"); reflexivity.
    + rewrite Hkeys. simpl. intuition discriminate.
  - unfold Object_keys at 1. rewrite map_app, Hkeys. reflexivity.
Qed.

Lemma success_payload_witness :
  let response :=
    match handle example_runtime (example_world example_readings []) example_request with
    | Normal r => r
    | Throw _ => errorResponse ""
    end in
  exists readings qualitativeName aqi,
    getAll example_runtime (example_world example_readings []) (pos_zero, pos_zero)
    = Normal readings
    /\ aqi_of example_runtime (map layer_entry readings) = Normal (qualitativeName, aqi)
    /\ body response
       = BodyJson (map layer_entry readings ++ [("aqi", AqiEntry qualitativeName aqi)])
           (Some 4)
    /\ Object_keys (map layer_entry readings ++ [("aqi", AqiEntry qualitativeName aqi)])
       = (Object_keys atmosphereTypeToLayer ++ ["aqi"])%list.
Proof.
  intros response.
  apply (success_payload example_runtime (example_world example_readings [])
           example_request response).
  vm_compute. reflexivity.
Defined.

(** ** What the index depends on *)

Lemma Normal_inj {A} (a b : A) : Normal a = Normal b -> a = b.
Proof. intros H. injection H as H. exact H. Qed.

Lemma reading_of_type (type : string) (json : Completion JsVal) :
  rd_type (reading_of type json) = type.
Proof.
  destruct json as [j | m]; simpl; [ | reflexivity].
  destruct (nullish (probe_Value j)); reflexivity.
Qed.

Lemma lookup_entries (f : string -> Reading) (keys : list string) (type : string) :
  (forall t, rd_type (f t) = t) ->
  In type keys ->
  lookup type (map layer_entry (map f keys))
  = Some (LayerEntry (rd_unit (f type)) (rd_value (f type))).
Proof.
  intros Hf. induction keys as [ | k keys IH]; simpl; [intros [] | ].
  intros Hin. unfold layer_entry at 1. rewrite Hf.
  destruct (String.eqb_spec k type) as [-> | Hne]; [reflexivity | ].
  destruct Hin as [Hk | Hin]; [contradiction | exact (IH Hin)].
Qed.

Lemma getAll_collect (rt : Runtime) (w : World) (coords : number * number)
    (readings : list Reading) (type : string) :
  getAll rt w coords = Normal readings ->
  In type (Object_keys atmosphereTypeToLayer) ->
  lookup type (collect readings)
  = Some (let r := reading_of type (response_json (fetch w (query_url rt coords type))) in
          LayerEntry (rd_unit r) (rd_value r)).
Proof.
  intros Hall Hin.
  pose proof (getAll_ok rt w coords (getAll_normal_ok rt w coords readings Hall)) as Hmap.
  rewrite Hall in Hmap. apply Normal_inj in Hmap. rewrite Hmap.
  rewrite collect_distinct.
  - apply (lookup_entries
             (fun t => reading_of t (response_json (fetch w (query_url rt coords t))))).
    + intros t. apply reading_of_type.
    + exact Hin.
  - rewrite map_map.
    rewrite (map_ext _ (fun t => t)) by (intros t; apply reading_of_type).
    rewrite map_id. apply catalog_keys_distinct.
Qed.

(** X12.  The index is a function of the four designated layers alone: two
    worlds whose upstream answers agree on the queries for NO2, PM10, O3 and
    PM2.5 give the same index value and name, whatever the eight other
    layers return (as long as all twelve calls succeed) and whatever the
    units of the four. *)
Theorem aqi_ignores_other_layers (rt : Runtime) (w w' : World) (coords : number * number)
    (readings readings' : list Reading) :
  getAll rt w coords = Normal readings ->
  getAll rt w' coords = Normal readings' ->
  (forall type, In type designated ->
     rd_value (reading_of type (response_json (fetch w (query_url rt coords type))))
     = rd_value (reading_of type (response_json (fetch w' (query_url rt coords type))))) ->
  aqi_of rt (collect readings) = aqi_of rt (collect readings').
Proof.
  intros Hall Hall' Hsame.
  assert (Hin : forall type, In type designated -> In type (Object_keys atmosphereTypeToLayer)).
  { intros type H. simpl in H. simpl. intuition. }
  unfold aqi_of, entry_value.
  assert (Hd : forall type, In type designated ->
             match lookup type (collect readings) with
             | Some (LayerEntry _ value) => Normal value
             | Some (AqiEntry _ value) => Normal (VNum value)
             | None => Throw (typeError_message rt)
             end
             = match lookup type (collect readings') with
               | Some (LayerEntry _ value) => Normal value
               | Some (AqiEntry _ value) => Normal (VNum value)
               | None => Throw (typeError_message rt)
               end).
  { intros type H.
    rewrite (getAll_collect rt w coords readings type Hall (Hin type H)).
    rewrite (getAll_collect rt w' coords readings' type Hall' (Hin type H)).
    cbv zeta. rewrite (Hsame type H). reflexivity. }
  rewrite (Hd "NO2"), (Hd "PM10"), (Hd "O3"), (Hd "PM2.5") by (simpl; intuition).
  reflexivity.
Qed.

Lemma aqi_ignores_other_layers_witness :
  exists readings readings',
    getAll example_runtime (example_world example_readings []) (pos_zero, pos_zero)
    = Normal readings
    /\ getAll example_runtime
         (example_world (("CO", ok_number 9000) :: ("SO2", FetchResponse true (Throw "bad"))
                         :: example_readings) [])
         (pos_zero, pos_zero)
       = Normal readings'
    /\ aqi_of example_runtime (collect readings) = aqi_of example_runtime (collect readings').
Proof.
  eexists. eexists. split; [vm_compute; reflexivity | split; [vm_compute; reflexivity | ]].
  apply (aqi_ignores_other_layers example_runtime
           (example_world example_readings [])
           (example_world (("CO", ok_number 9000) :: ("SO2", FetchResponse true (Throw "bad"))
                           :: example_readings) [])
           (pos_zero, pos_zero)).
  - vm_compute. reflexivity.
  - vm_compute. reflexivity.
  - intros type H. simpl in H.
    repeat (destruct H as [<- | H]; [vm_compute; reflexivity | ]). destruct H.
Defined.

(** ** Request headers *)

Lemma handle_without_headers (rt : Runtime) (w : World) (event : Request) :
  handle rt w event
  = match handle rt w (without_headers event) with
    | Normal r => Normal (with_indent (indent_for event) r)
    | Throw message => Throw message
    end.
Proof.
  unfold handle. cbn [without_headers req_searchParams req_headers].
  destruct (is_nan _); [reflexivity | ].
  destruct (is_nan _); [reflexivity | ].
  destruct (getAll rt w _) as [atmosphereData | m]; simpl; [ | reflexivity].
  destruct (aqi_of rt _) as [[qualitativeName aqi] | m]; simpl; [ | reflexivity].
  unfold indent_for. destruct (headers_get (req_headers event) "origin"); reflexivity.
Qed.

(** X13.  The request headers change nothing but the indent of a JSON body:
    the response to a request is the response to the same request without
    headers, printed with indent 4 when there is no Origin header and
    compactly when there is one; status, headers, payload and error
    messages are the same. *)
Theorem headers_change_only_the_indent (rt : Runtime) (w : World) (event : Request) :
  fetch_listener rt w event
  = with_indent (indent_for event) (fetch_listener rt w (without_headers event)).
Proof.
  unfold fetch_listener. rewrite handle_without_headers.
  destruct (handle rt w (without_headers event)) as [r | message]; reflexivity.
Qed.

(** ** The twelve queries *)

(** X14.  The queries for two types have the same base and the same
    parameters except [layers] and [query_layers], which both carry the
    type's layer; no query has a TIME or DIM_REFERENCE_TIME parameter; and
    the twelve catalog keys give twelve different layers, so the twelve
    queries of [getAll] are pairwise different. *)
Theorem queries_differ_only_in_layer (rt : Runtime) (coords : number * number)
    (type type' : string) :
  url_base (query_url rt coords type) = url_base (query_url rt coords type')
  /\ common_params (query_url rt coords type) = common_params (query_url rt coords type')
  /\ searchParams_get (url_searchParams (query_url rt coords type)) "layers"
     = Some (layer_of rt type)
  /\ searchParams_get (url_searchParams (query_url rt coords type)) "query_layers"
     = Some (layer_of rt type)
  /\ searchParams_get (url_searchParams (query_url rt coords type)) "TIME" = None
  /\ searchParams_get (url_searchParams (query_url rt coords type)) "DIM_REFERENCE_TIME" = None
  /\ NoDup (map (fun t => searchParams_get (url_searchParams (query_url rt coords t)) "layers")
              (Object_keys atmosphereTypeToLayer)).
Proof.
  repeat match goal with |- _ /\ _ => split end; try reflexivity.
  unfold query_url, searchParams_get. cbn -[bbox_of join map Number_toString].
  simpl map.
  repeat (constructor; [simpl; intuition discriminate | ]). constructor.
Qed.

(** ** The limit tables *)

(** X15.  The two limit tables have the keys of the layer catalog, in the
    same order and without repetition; they define a limit for the same
    types (CO, NO2, PM10, PM2.5 and SO2), and for each of those the moderate
    limit is below the bad limit. *)
Theorem limit_tables_agree (type : string) :
  Object_keys moderateLimit = Object_keys atmosphereTypeToLayer
  /\ Object_keys badLimit = Object_keys atmosphereTypeToLayer
  /\ NoDup (Object_keys atmosphereTypeToLayer)
  /\ match lookup type moderateLimit, lookup type badLimit with
     | Some (Some moderate), Some (Some bad) => moderate < bad
     | Some None, Some None => True
     | None, None => lookup type atmosphereTypeToLayer = None
     | _, _ => False
     end.
Proof.
  split; [reflexivity | split; [reflexivity | split; [apply catalog_keys_distinct | ]]].
  unfold moderateLimit, badLimit, atmosphereTypeToLayer. cbn [lookup].
  destruct (String.eqb "Pollen-Birch" type); [exact I | ].
  destruct (String.eqb "CO" type); [lia | ].
  destruct (String.eqb "Pollen-Grass" type); [exact I | ].
  destruct (String.eqb "NH3" type); [exact I | ].
  destruct (String.eqb "NMVOC" type); [exact I | ].
  destruct (String.eqb "NO" type); [exact I | ].
  destruct (String.eqb "NO2" type); [lia | ].
  destruct (String.eqb "O3" type); [exact I | ].
  destruct (String.eqb "PANs" type); [exact I | ].
  destruct (String.eqb "PM10" type); [lia | ].
  destruct (String.eqb "PM2.5" type); [lia | ].
  destruct (String.eqb "SO2" type); [lia | ].
  reflexivity.
Qed.

(** ** Bands in order *)

Lemma num_le_lt_trans (x y z : number) :
  num_le x y = true -> num_lt y z = true -> num_lt x z = true.
Proof.
  unfold num_le, num_lt, SFleb, SFltb.
  destruct x as [sx | sx | | sx mx ex], y as [sy | sy | | sy my ey],
    z as [sz | sz | | sz mz ez]; simpl;
    try destruct sx; try destruct sy; try destruct sz; simpl;
    try discriminate; try reflexivity; intros H1 H2.
  all: split_compare.
Qed.

Lemma num_le_numbers (x y : number) :
  num_le x y = true -> is_nan x = false /\ is_nan y = false.
Proof. destruct x, y; try discriminate; split; reflexivity. Qed.

(** X16.  The bands are monotone: a larger index never gets a better name.
    From best to worst the names rank very_low, low, medium, high,
    very_high. *)
Theorem bands_are_monotone (a b : number) :
  num_le a b = true ->
  band_rank (qualitativeName_of a) <= band_rank (qualitativeName_of b).
Proof.
  intros Hle. destruct (num_le_numbers a b Hle) as [Ha Hb].
  assert (Hlt : forall z, num_lt b z = true -> num_lt a z = true)
    by (intros z; apply num_le_lt_trans, Hle).
  unfold qualitativeName_of, num_ge.
  rewrite (num_le_not_lt a), (num_le_not_lt b)
    by (assumption || (apply limit_not_nan; lia)).
  pose proof (Hlt (num_of_Z 25)) as H25. pose proof (Hlt (num_of_Z 50)) as H50.
  pose proof (Hlt (num_of_Z 75)) as H75. pose proof (Hlt (num_of_Z 100)) as H100.
  destruct (num_lt b (num_of_Z 25)), (num_lt a (num_of_Z 25));
    try (specialize (H25 eq_refl); discriminate H25);
    destruct (num_lt b (num_of_Z 50)), (num_lt a (num_of_Z 50));
    try (specialize (H50 eq_refl); discriminate H50);
    destruct (num_lt b (num_of_Z 75)), (num_lt a (num_of_Z 75));
    try (specialize (H75 eq_refl); discriminate H75);
    destruct (num_lt b (num_of_Z 100)), (num_lt a (num_of_Z 100));
    try (specialize (H100 eq_refl); discriminate H100);
    vm_compute; intros Hgt; discriminate Hgt.
Qed.

Lemma bands_are_monotone_witness :
  band_rank (qualitativeName_of n22_5) <= band_rank (qualitativeName_of n32_5).
Proof. apply bands_are_monotone. vm_compute. reflexivity. Defined.

(** ** When a request succeeds *)

Lemma designated_of_getAll (rt : Runtime) (w : World) (coords : number * number)
    (readings : list Reading) :
  getAll rt w coords = Normal readings ->
  designated_values (collect readings)
  = map (fun type =>
           Some (rd_value (reading_of type (response_json (fetch w (query_url rt coords type))))))
      designated.
Proof.
  intros Hall. unfold designated_values. apply map_ext_in.
  intros type Hin.
  rewrite (getAll_collect rt w coords readings type Hall); [reflexivity | ].
  simpl in Hin. simpl. intuition.
Qed.

(** X17.  A request succeeds whenever both coordinates are numeric, of
    whatever magnitude, all twelve fetches resolve to ok responses, and the
    four designated values are numbers, [null] or [undefined]: the status is
    200 and the payload's [aqi] entry holds the mean of the four values
    ([null] as 0, [undefined] as NaN) with the name of its band. *)
Theorem valid_request_succeeds (rt : Runtime) (w : World) (event : Request) :
  let lat := parseFloat (string_of_param (searchParams_get (req_searchParams event) "lat")) in
  let lng := parseFloat (string_of_param (searchParams_get (req_searchParams event) "lng")) in
  let value_of type :=
    rd_value (reading_of type (response_json (fetch w (query_url rt (lng, lat) type)))) in
  let aqi := mean (map (fun type => summand (value_of type)) designated) in
  numeric (searchParams_get (req_searchParams event) "lat") = true ->
  numeric (searchParams_get (req_searchParams event) "lng") = true ->
  (forall type, In type (Object_keys atmosphereTypeToLayer) ->
     exists json, fetch w (query_url rt (lng, lat) type) = FetchResponse true json) ->
  (forall type, In type designated -> number_null_or_undefined (value_of type)) ->
  status (fetch_listener rt w event) = 200
  /\ exists payload,
       body (fetch_listener rt w event) = BodyJson payload (indent_for event)
       /\ lookup "aqi" payload = Some (AqiEntry (qualitativeName_of aqi) aqi).
Proof.
  intros lat lng value_of aqi Hlat Hlng Hok Hvals.
  assert (Hh : exists payload,
             lookup "aqi" payload = Some (AqiEntry (qualitativeName_of aqi) aqi)
             /\ handle rt w event
                = Normal (new_Response (BodyJson payload (indent_for event)) 200
                            [("content-type", "application/json")])).
  { unfold handle. fold lat. fold lng.
    unfold lat at 1. rewrite parseFloat_nan, Hlat. cbn [negb].
    unfold lng at 1. rewrite parseFloat_nan, Hlng. cbn [negb].
    pose proof (getAll_ok rt w (lng, lat) Hok) as Hall. rewrite Hall. cbn [bind].
    pose proof (designated_of_getAll rt w (lng, lat) _ Hall) as Hd.
    rewrite <- (map_map value_of Some) in Hd.
    rewrite (aqi_of_average rt _ _ Hd).
    rewrite average_mean.
    - cbn [bind]. rewrite map_map. fold aqi.
      eexists. split; [apply lookup_assign_same | ].
      unfold indent_for. destruct (headers_get (req_headers event) "origin"); reflexivity.
    - apply Forall_forall. intros v Hv. apply in_map_iff in Hv.
      destruct Hv as (type & <- & Hin). apply Hvals, Hin. }
  destruct Hh as (payload & Haqi & Hh). unfold fetch_listener. rewrite Hh.
  split; [reflexivity | ]. exists payload. split; [reflexivity | exact Haqi].
Qed.

Lemma valid_request_succeeds_witness :
  status (fetch_listener example_runtime (example_world example_readings [])
            {| req_searchParams := [("lat", "9999"); ("lng", "-Infinity")];
               req_headers := [("Origin", "https://example.org")] |}) = 200.
Proof.
  refine (proj1 (valid_request_succeeds example_runtime (example_world example_readings [])
                   {| req_searchParams := [("lat", "9999"); ("lng", "-Infinity")];
                      req_headers := [("Origin", "https://example.org")] |} _ _ _ _)).
  - reflexivity.
  - reflexivity.
  - intros type Hin. simpl in Hin.
    repeat (destruct Hin as [<- | Hin]; [eexists; vm_compute; reflexivity | ]).
    destruct Hin.
  - intros type Hin. simpl in Hin.
    repeat (destruct Hin as [<- | Hin]; [vm_compute; exact I | ]).
    destruct Hin.
Defined.

(** ** The height of the box *)

(** X18.  Whatever the centre and whatever [Math.cos] returns, the two
    latitude bounds of the box are the centre's latitude minus and plus the
    same constant, 0.04491576420597608 degrees (5000 m on a sphere of radius
    6378137 m); only the longitude bounds depend on the cosine. *)
Theorem box_height_is_constant (rt : Runtime) (long lat : number) :
  nth_error (bbox_of rt (long, lat)) 0
  = Some (num_add lat (parseFloat "-0.04491576420597608"))
  /\ nth_error (bbox_of rt (long, lat)) 2
     = Some (num_add lat (parseFloat "0.04491576420597608"))
  /\ List.length (bbox_of rt (long, lat)) = 4%nat.
Proof.
  unfold bbox_of, offset. cbn [nth_error List.length].
  split; [ | split; [ | reflexivity]]; f_equal; f_equal; vm_compute; reflexivity.
Qed.
